(** * rifas-backend: the credential encoder and the fixture migrator

    A shallow embedding of [encode_key.py] and [migrate_to_firestore.py].

    Both scripts are straight-line Python that talks to the outside world
    (the file system, the console, the Firestore client).  The embedding
    keeps the Python values and the control flow as they are written and
    makes the outside world explicit:

    - a parsed JSON document is a value of [json];
    - the file system is a function from paths to what opening them yields;
    - the Firestore service is a store of documents plus an oracle that says,
      for the n-th call that reaches the client, whether it raises;
    - [print] appends to a console log, one entry per call.  *)

From Stdlib Require Import ZArith NArith Lia List String Ascii PrimFloat.
From Stdlib.Strings Require Import Byte.
From stdpp Require Import gmap strings list fin_maps.
Import ListNotations.

Set Warnings "-register-all".
Open Scope string_scope.
Open Scope list_scope.
Open Scope nat_scope.
Open Scope stdpp_scope.

(** ** Python values *)

(** What [json.load] returns: [None], [bool], [int], [float], [str], [list]
    and [dict].  A dict keeps its keys in insertion order, so it is an
    association list; its keys are distinct in every value Python builds, and
    a lookup takes the first match.  A [str] is the sequence of its
    characters, one [ascii] each. *)
Inductive json : Type :=
  | JNull
  | JBool (b : bool)
  | JInt (z : Z)
  | JFloat (f : float)
  | JStr (s : string)
  | JArr (items : list json)
  | JObj (fields : list (string * json)).

(** An exception: its class and the text [str(e)] gives. *)
Record exn : Type := Exn { exn_class : string; exn_text : string }.

Inductive result (A : Type) : Type :=
  | Ok (a : A)
  | Raise (e : exn).
Arguments Ok {A} a.
Arguments Raise {A} e.

(** One [print] call.  An f-string is kept as its pieces, so that no choice
    of [repr] or [str] formatting is baked into the model. *)
Inductive frag : Type :=
  | Text (s : string)      (* literal text, or an interpolated str *)
  | Num (n : nat)          (* an interpolated int *)
  | Repr (v : json)        (* an interpolated record *)
  | Err (e : exn).         (* an interpolated exception *)

Definition line : Type := list frag.

Module Py.

Definition TypeError (msg : string) : exn := Exn "TypeError" msg.
Definition KeyError (key : string) : exn := Exn "KeyError" ("'" ++ key ++ "'").

(** [bool(v)], the test of [if v:]. *)
Definition truthy (v : json) : bool :=
  match v with
  | JNull => false
  | JBool b => b
  | JInt z => negb (z =? 0)%Z
  | JFloat f => negb (PrimFloat.eqb f PrimFloat.zero)
  | JStr s => negb (String.eqb s "")
  | JArr items => match items with [] => false | _ => true end
  | JObj fields => match fields with [] => false | _ => true end
  end.

(** [len(v)]. *)
Definition len (v : json) : result nat :=
  match v with
  | JStr s => Ok (String.length s)
  | JArr items => Ok (length items)
  | JObj fields => Ok (length fields)
  | _ => Raise (TypeError "object has no len()")
  end.

(** [v[lo:hi]] for [0 <= lo].  A slice is clipped to the sequence; a dict
    cannot be sliced. *)
Definition slice (v : json) (lo hi : nat) : result json :=
  match v with
  | JArr items => Ok (JArr (firstn (hi - lo) (skipn lo items)))
  | JStr s => Ok (JStr (substring lo (hi - lo) s))
  | JObj _ => Raise (TypeError "unhashable type: 'slice'")
  | _ => Raise (TypeError "object is not subscriptable")
  end.

Fixpoint chars (s : string) : list json :=
  match s with
  | EmptyString => []
  | String c rest => JStr (String c EmptyString) :: chars rest
  end.

(** The values a [for x in v:] loop visits. *)
Definition iter (v : json) : result (list json) :=
  match v with
  | JArr items => Ok items
  | JStr s => Ok (chars s)
  | JObj fields => Ok (map (fun kv => JStr (fst kv)) fields)
  | _ => Raise (TypeError "object is not iterable")
  end.

Fixpoint assoc (key : string) (fields : list (string * json)) : option json :=
  match fields with
  | [] => None
  | (k, v) :: rest => if String.eqb k key then Some v else assoc key rest
  end.

(** [v[key]] for a text key. *)
Definition getitem (v : json) (key : string) : result json :=
  match v with
  | JObj fields =>
      match assoc key fields with
      | Some x => Ok x
      | None => Raise (KeyError key)
      end
  | JStr _ => Raise (TypeError "string indices must be integers")
  | JArr _ => Raise (TypeError "list indices must be integers or slices, not str")
  | _ => Raise (TypeError "object is not subscriptable")
  end.

Fixpoint range_from (fuel start stop step : nat) : list nat :=
  match fuel with
  | O => []
  | S fuel' =>
      if start <? stop
      then start :: range_from fuel' (start + step) stop step
      else []
  end.

(** [range(start, stop, step)] for a positive step: at most [stop] values
    are produced, so [stop] is fuel enough. *)
Definition range (start stop step : nat) : list nat :=
  range_from stop start stop step.

End Py.

(** ** Base64

    [base64.b64encode] belongs to Python's standard library; it is the
    encoding of RFC 4648, section 4: three bytes become four characters of
    the alphabet, and a last group of one or two bytes is padded with [=]. *)
Module Base64.

Definition alphabet : list byte :=
  list_byte_of_string
    "ABCDEFGHIJKLMNOPQRSTUVWXYZabcdefghijklmnopqrstuvwxyz0123456789+/".

Definition pad : byte := "="%byte.

(** The character for a six-bit value. *)
Definition sextet_char (n : N) : byte := nth (N.to_nat n) alphabet pad.

Fixpoint index_of (c : byte) (table : list byte) (i : N) : option N :=
  match table with
  | [] => None
  | x :: rest => if Byte.eqb c x then Some i else index_of c rest (N.succ i)
  end.

(** The six-bit value of a character of the alphabet. *)
Definition char_sextet (c : byte) : option N := index_of c alphabet 0%N.

Definition encode3 (a b c : byte) : list byte :=
  let n := (Byte.to_N a * 65536 + Byte.to_N b * 256 + Byte.to_N c)%N in
  [ sextet_char (n / 262144);
    sextet_char ((n / 4096) mod 64);
    sextet_char ((n / 64) mod 64);
    sextet_char (n mod 64) ].

Definition encode2 (a b : byte) : list byte :=
  let n := ((Byte.to_N a * 256 + Byte.to_N b) * 4)%N in
  [ sextet_char (n / 4096);
    sextet_char ((n / 64) mod 64);
    sextet_char (n mod 64);
    pad ].

Definition encode1 (a : byte) : list byte :=
  let n := (Byte.to_N a * 16)%N in
  [ sextet_char (n / 64); sextet_char (n mod 64); pad; pad ].

Fixpoint b64encode (bs : list byte) : list byte :=
  match bs with
  | [] => []
  | [a] => encode1 a
  | [a; b] => encode2 a b
  | a :: b :: c :: rest => encode3 a b c ++ b64encode rest
  end.

Definition sextets2 (c1 c2 : byte) : option N :=
  match char_sextet c1, char_sextet c2 with
  | Some s1, Some s2 => Some (s1 * 64 + s2)%N
  | _, _ => None
  end.

Definition sextets3 (c1 c2 c3 : byte) : option N :=
  match sextets2 c1 c2, char_sextet c3 with
  | Some n, Some s3 => Some (n * 64 + s3)%N
  | _, _ => None
  end.

Definition sextets4 (c1 c2 c3 c4 : byte) : option N :=
  match sextets3 c1 c2 c3, char_sextet c4 with
  | Some n, Some s4 => Some (n * 64 + s4)%N
  | _, _ => None
  end.

Definition bytes_of (ns : list N) : option (list byte) :=
  mapM Byte.of_N ns.

(** Decoding of padded text, four characters at a time; padding is only
    accepted in the last group.  [None] is a decoding error. *)
Fixpoint b64decode (cs : list byte) : option (list byte) :=
  match cs with
  | [] => Some []
  | c1 :: c2 :: c3 :: c4 :: rest =>
      if Byte.eqb c4 pad then
        match rest with
        | [] =>
            if Byte.eqb c3 pad
            then n ← sextets2 c1 c2; bytes_of [n / 16]%N
            else n ← sextets3 c1 c2 c3; bytes_of [n / 1024; (n / 4) mod 256]%N
        | _ :: _ => None
        end
      else
        n ← sextets4 c1 c2 c3 c4;
        front ← bytes_of [n / 65536; (n / 256) mod 256; n mod 256]%N;
        back ← b64decode rest;
        Some (front ++ back)
  | _ => None
  end.

End Base64.

(** ** encode_key.py *)
Module EncodeKey.

Definition SERVICE_ACCOUNT_FILE : string :=
  "tu-oportunidad-es-hoy-firebase-adminsdk-fbsvc-781e9f9dc1.json".

(** What the script finds at a path: nothing, a file that cannot be opened
    or read (the exception [open] or [read] raises), or the file's bytes. *)
Inductive key_file : Type :=
  | NoFile
  | Unreadable (e : exn)
  | Bytes (bs : list byte).

Definition START_MARKER : line := [Text "--- COMIENZO DE CLAVE BASE64 ---"].
Definition END_MARKER : line := [Text "--- FIN DE CLAVE BASE64 ---"].

(** [base64.b64encode(f.read()).decode("utf-8")]: the encoded bytes are
    ASCII, which UTF-8 decodes character by character. *)
Definition encoded_string (bs : list byte) : string :=
  string_of_list_byte (Base64.b64encode bs).

(** The whole script: the console output, one entry per [print]. *)
Definition encode_key (disk : string -> key_file) : list line :=
  match disk SERVICE_ACCOUNT_FILE with
  | NoFile =>
      [ [Text "Error: Archivo '"; Text SERVICE_ACCOUNT_FILE;
         Text "' no encontrado en el directorio actual."] ]
  | Unreadable e =>
      [ [Text "Error al codificar el archivo: "; Err e] ]
  | Bytes bs =>
      [ START_MARKER;
        [Text (encoded_string bs)];
        END_MARKER;
        [Text "
Copia el texto entre '--- COMIENZO ---' y '--- FIN ---' y pégalo en Render."] ]
  end.

(** A two-byte key file. *)
Definition sample_key : list byte := list_byte_of_string "{}".

Definition sample_key_disk (filepath : string) : key_file := Bytes sample_key.

Definition empty_key_disk (filepath : string) : key_file := NoFile.

(** What an operator copies: the printed text between the two markers. *)
Definition between_markers (out : list line) : option string :=
  match out with
  | first :: [Text s] :: last :: _ => Some s
  | _ => None
  end.

End EncodeKey.


(** ** migrate_to_firestore.py *)
Module Migrator.

(** *** The outside world *)

(** What [load_json] finds at a path: no file, a file [json.load] rejects
    (a zero-byte file is one: no JSON value starts at its first character),
    a file that cannot be opened or read, or a file holding a JSON value. *)
Inductive fixture_file : Type :=
  | Absent
  | Malformed (e : exn)
  | Unreadable (e : exn)
  | Holds (v : json).

(** A document reference: a collection and a document id; no id means that
    the destination assigns one. *)
Record doc_ref : Type := DocRef { ref_collection : string; ref_id : option string }.

(** One write: the document it addresses and the content submitted. *)
Record write : Type := Write { w_ref : doc_ref; w_data : json }.

(** The calls that reach the service. *)
Inductive request : Type :=
  | SetDoc (collection id : string) (data : json)   (* doc_ref.set(data) *)
  | Commit (batch : list write)                     (* batch.commit() *)
  | AddDoc (collection : string) (data : json).     (* collection.add(data) *)

Record world : Type := World {
  docs : gmap (string * string) json;   (* documents with a chosen id *)
  assigned : list (string * json);      (* documents with an assigned id, oldest first *)
  requests : list request;              (* every call issued to the service, oldest first *)
  loads : list string;                  (* every path load_json was called on, oldest first *)
  stdout : list line                    (* every print, oldest first *)
}.

Definition empty_world : world := World ∅ [] [] [] [].

Definition with_request (r : request) (w : world) : world :=
  World (docs w) (assigned w) (requests w ++ [r]) (loads w) (stdout w).

Definition with_load (path : string) (w : world) : world :=
  World (docs w) (assigned w) (requests w) (loads w ++ [path]) (stdout w).

Definition with_line (l : line) (w : world) : world :=
  World (docs w) (assigned w) (requests w) (loads w) (stdout w ++ [l]).

(** Modelled from the spec: the destination is a service outside the
    repository; the migrator's contract with it is "create/overwrite document
    at collection+id".  A write with a chosen id replaces what the document
    held; a write without one creates a new document. *)
Definition apply_write (wr : write) (w : world) : world :=
  match ref_id (w_ref wr) with
  | Some id =>
      World (<[(ref_collection (w_ref wr), id) := w_data wr]> (docs w))
            (assigned w) (requests w) (loads w) (stdout w)
  | None =>
      World (docs w) (assigned w ++ [(ref_collection (w_ref wr), w_data wr)])
            (requests w) (loads w) (stdout w)
  end.

(** Modelled from the spec: a batch is "a fixed-size group of write
    operations submitted to the destination as one atomic unit"; its writes
    take effect together, in the order they were staged. *)
Definition apply_batch (batch : list write) (w : world) : world :=
  fold_left (fun acc wr => apply_write wr acc) batch w.

Definition apply_request (r : request) (w : world) : world :=
  match r with
  | SetDoc collection id data => apply_write (Write (DocRef collection (Some id)) data) w
  | Commit batch => apply_batch batch w
  | AddDoc collection data => apply_write (Write (DocRef collection None) data) w
  end.

(** *** Computations: state, console and exceptions *)

Definition M (A : Type) : Type := world -> result A * world.

Definition ret {A} (a : A) : M A := fun w => (Ok a, w).

Definition bind {A B} (m : M A) (k : A -> M B) : M B :=
  fun w =>
    match m w with
    | (Ok a, w') => k a w'
    | (Raise e, w') => (Raise e, w')
    end.

Definition lift {A} (r : result A) : M A := fun w => (r, w).

(** [try: body  except Exception as e: handler e]. *)
Definition try_except {A} (body : M A) (handler : exn -> M A) : M A :=
  fun w =>
    match body w with
    | (Ok a, w') => (Ok a, w')
    | (Raise e, w') => handler e w'
    end.

Definition print (l : line) : M unit := fun w => (Ok tt, with_line l w).

Notation "x <- m ;; k" := (bind m (fun x => k))
  (at level 100, m at next level, right associativity).
Notation "m ;; k" := (bind m (fun _ => k))
  (at level 100, right associativity).

(** [for x in xs: body x]. *)
Fixpoint for_each {A} (xs : list A) (body : A -> M unit) : M unit :=
  match xs with
  | [] => ret tt
  | x :: rest => body x ;; for_each rest body
  end.

(** A loop that updates a local object (the batch being staged). *)
Fixpoint for_fold {A S} (xs : list A) (body : S -> A -> M S) (s : S) : M S :=
  match xs with
  | [] => ret s
  | x :: rest => s' <- body s x ;; for_fold rest body s'
  end.

(** *** Fixture files *)

Definition CONFIGURACION_FILE : string := "configuracion.json".
Definition NUMEROS_FILE : string := "numeros.json".
Definition HORARIOS_ZULIA_FILE : string := "horarios_zulia.json".
Definition GANADORES_FILE : string := "ganadores.json".
Definition PREMIOS_FILE : string := "premios.json".
Definition VENTAS_FILE : string := "ventas.json".
Definition RESULTADOS_ZULIA_FILE : string := "resultados_zulia.json".
Definition COMPROBANTES_FILE : string := "comprobantes.json".

Definition batch_size : nat := 500.

(** The number of ['/'] in a path. *)
Fixpoint slashes (path : string) : nat :=
  match path with
  | EmptyString => 0
  | String c rest => (if Ascii.eqb c "/" then 1 else 0) + slashes rest
  end.

(** [len(path.split('/'))]. *)
Definition path_elements (path : string) : nat := S (slashes path).

(** [collection.document(id)].  Given [None] the client generates an id.
    Given a text it joins the collection's path and the id with ['/'],
    splits the result on ['/'] again and only accepts an even number of
    elements (collection, document, collection, document, ...): an id with
    one ['/'] raises ValueError, an id with two addresses a document further
    down.  Anything that is not a text makes the join raise TypeError.  The
    reference keeps the collection it was asked from and the id as given,
    which together are the document's path. *)
Definition document (collection : string) (id : json) : result doc_ref :=
  match id with
  | JNull => Ok (DocRef collection None)
  | JStr document_id =>
      if Nat.even (path_elements (collection ++ "/" ++ document_id))
      then Ok (DocRef collection (Some document_id))
      else Raise (Exn "ValueError"
                      "A document must have an even number of path elements")
  | _ => Raise (Py.TypeError "sequence item 1: expected str instance")
  end.

Inductive fixture : Type :=
  | Configuracion | Numeros | HorariosZulia | Ganadores
  | Premios | Ventas | ResultadosZulia | Comprobantes.

Definition all_fixtures : list fixture :=
  [Configuracion; Numeros; HorariosZulia; Ganadores;
   Premios; Ventas; ResultadosZulia; Comprobantes].

Definition fixture_path (f : fixture) : string :=
  match f with
  | Configuracion => CONFIGURACION_FILE
  | Numeros => NUMEROS_FILE
  | HorariosZulia => HORARIOS_ZULIA_FILE
  | Ganadores => GANADORES_FILE
  | Premios => PREMIOS_FILE
  | Ventas => VENTAS_FILE
  | ResultadosZulia => RESULTADOS_ZULIA_FILE
  | Comprobantes => COMPROBANTES_FILE
  end.

(** Where a credential comes from: the text of the environment variable,
    or the service-account file next to the script. *)
Inductive credential : Type :=
  | FromEnvironment (blob : string)
  | FromFile (path : string).

Definition SERVICE_ACCOUNT_FILE : string :=
  "tu-oportunidad-es-hoy-firebase-adminsdk-fbsvc-781e9f9dc1.json".

Section Run.

(** The files on disk. *)
Variable disk : string -> fixture_file.

(** The service: whether the n-th call issued to it raises.  Every
    reason a call can fail for (network, permissions, a record the
    service or the client rejects) is an instance. *)
Variable service : nat -> option exn.

(** The client encodes a record when it is staged in a batch and raises
    on a record it cannot encode; which records those are is left open. *)
Variable encode_error : json -> option exn.

(** One call to the service.  The call is recorded; when it raises, the
    store is left as it was (a batch is applied whole or not at all). *)
Definition call (r : request) : M unit :=
  fun w =>
    match service (length (requests w)) with
    | Some e => (Raise e, with_request r w)
    | None => (Ok tt, apply_request r (with_request r w))
    end.

Definition doc_set (collection id : string) (data : json) : M unit :=
  call (SetDoc collection id data).

Definition batch_commit (batch : list write) : M unit :=
  call (Commit batch).

Definition collection_add (collection : string) (data : json) : M unit :=
  call (AddDoc collection data).

(** [batch.set(ref, data)]: nothing is sent yet. *)
Definition batch_set (batch : list write) (ref : doc_ref) (data : json)
  : M (list write) :=
  match encode_error data with
  | Some e => lift (Raise e)
  | None => ret (batch ++ [Write ref data])
  end.

Definition load_json (filepath : string) : M json :=
  fun w =>
    let w := with_load filepath w in
    match disk filepath with
    | Absent =>
        (Ok JNull,
         with_line [Text "Advertencia: Archivo '"; Text filepath;
                    Text "' no encontrado. Se omitirá la migración para este archivo."] w)
    | Malformed e =>
        (Ok JNull,
         with_line [Text "Error al decodificar JSON en '"; Text filepath;
                    Text "': "; Err e] w)
    | Unreadable e =>
        (Ok JNull,
         with_line [Text "Error al cargar '"; Text filepath; Text "': "; Err e] w)
    | Holds v => (Ok v, w)
    end.

(** 1. Migrar Configuración *)
Definition migrate_configuracion : M unit :=
  configuracion_data <- load_json CONFIGURACION_FILE ;;
  if Py.truthy configuracion_data then
    try_except
      (doc_set "configuracion" "general" configuracion_data ;;
       print [Text "Configuración migrada exitosamente a 'configuracion/general'."])
      (fun e => print [Text "Error al migrar configuración: "; Err e])
  else ret tt.

(** 2. Migrar Números *)
Definition stage_numero (batch : list write) (numero_item : json) : M (list write) :=
  numero <- lift (Py.getitem numero_item "numero") ;;
  doc_ref <- lift (document "numeros" numero) ;;
  batch_set batch doc_ref numero_item.

Definition migrate_numeros : M unit :=
  numeros_data <- load_json NUMEROS_FILE ;;
  if Py.truthy numeros_data then
    total <- lift (Py.len numeros_data) ;;
    for_each (Py.range 0 total batch_size) (fun i =>
      segment <- lift (Py.slice numeros_data i (i + batch_size)) ;;
      items <- lift (Py.iter segment) ;;
      batch <- for_fold items stage_numero [] ;;
      try_except
        (batch_commit batch ;;
         print [Text "Batch de números comprometido, total: ";
                Num (Nat.min (i + batch_size) total)])
        (fun e => print [Text "Error al comprometer batch de números: "; Err e])) ;;
    print [Text "Migrados "; Num total; Text " números a la colección 'numeros'."]
  else ret tt.

(** 3. Migrar Horarios Zulia *)
Definition migrate_horarios_zulia : M unit :=
  horarios_zulia_data <- load_json HORARIOS_ZULIA_FILE ;;
  if Py.truthy horarios_zulia_data then
    try_except
      (doc_set "horarios_zulia" "horarios_principales"
               (JObj [("horarios", horarios_zulia_data)]) ;;
       total <- lift (Py.len horarios_zulia_data) ;;
       print [Text "Migrados "; Num total;
              Text " horarios de Zulia a 'horarios_zulia/horarios_principales'."])
      (fun e => print [Text "Error al migrar horarios de Zulia: "; Err e])
  else ret tt.

(** 4. Migrar Ganadores *)
Definition migrate_ganadores : M unit :=
  ganadores_data <- load_json GANADORES_FILE ;;
  if Py.truthy ganadores_data then
    items <- lift (Py.iter ganadores_data) ;;
    for_each items (fun ganador =>
      try_except
        (collection_add "ganadores" ganador)
        (fun e => print [Text "Error al migrar ganador: "; Repr ganador;
                         Text " - "; Err e])) ;;
    total <- lift (Py.len ganadores_data) ;;
    print [Text "Migrados "; Num total; Text " ganadores a la colección 'ganadores'."]
  else ret tt.

(** 5. Migrar Premios *)
Definition migrate_premios : M unit :=
  premios_data <- load_json PREMIOS_FILE ;;
  if Py.truthy premios_data then
    try_except
      (doc_set "premios" "general" premios_data ;;
       print [Text "Premios migrados exitosamente a 'premios/general'."])
      (fun e => print [Text "Error al migrar premios: "; Err e])
  else ret tt.

(** 6. Migrar Ventas *)
Definition stage_venta (batch : list write) (venta : json) : M (list write) :=
  batch_set batch (DocRef "ventas" None) venta.

Definition migrate_ventas : M unit :=
  ventas_data <- load_json VENTAS_FILE ;;
  if Py.truthy ventas_data then
    total <- lift (Py.len ventas_data) ;;
    for_each (Py.range 0 total batch_size) (fun i =>
      segment <- lift (Py.slice ventas_data i (i + batch_size)) ;;
      items <- lift (Py.iter segment) ;;
      batch <- for_fold items stage_venta [] ;;
      try_except
        (batch_commit batch ;;
         print [Text "Batch de ventas comprometido, total: ";
                Num (Nat.min (i + batch_size) total)])
        (fun e => print [Text "Error al comprometer batch de ventas: "; Err e])) ;;
    print [Text "Migradas "; Num total; Text " ventas a la colección 'ventas'."]
  else ret tt.

(** 7. Migrar Resultados Zulia *)
Definition migrate_resultados_zulia : M unit :=
  resultados_zulia_data <- load_json RESULTADOS_ZULIA_FILE ;;
  if Py.truthy resultados_zulia_data then
    items <- lift (Py.iter resultados_zulia_data) ;;
    for_each items (fun resultado =>
      try_except
        (collection_add "resultados_zulia" resultado)
        (fun e => print [Text "Error al migrar resultado de Zulia: "; Repr resultado;
                         Text " - "; Err e])) ;;
    total <- lift (Py.len resultados_zulia_data) ;;
    print [Text "Migrados "; Num total;
           Text " resultados de Zulia a la colección 'resultados_zulia'."]
  else ret tt.

(** 8. Migrar Comprobantes *)
Definition migrate_comprobantes : M unit :=
  comprobantes_data <- load_json COMPROBANTES_FILE ;;
  if Py.truthy comprobantes_data then
    items <- lift (Py.iter comprobantes_data) ;;
    for_each items (fun comprobante =>
      try_except
        (collection_add "comprobantes" comprobante)
        (fun e => print [Text "Error al migrar comprobante: "; Repr comprobante;
                         Text " - "; Err e])) ;;
    total <- lift (Py.len comprobantes_data) ;;
    print [Text "Migrados "; Num total;
           Text " comprobantes a la colección 'comprobantes'."]
  else ret tt.

Definition migrate_data : M unit :=
  print [Text "Iniciando migración de datos a Firestore..."] ;;
  migrate_configuracion ;;
  migrate_numeros ;;
  migrate_horarios_zulia ;;
  migrate_ganadores ;;
  migrate_premios ;;
  migrate_ventas ;;
  migrate_resultados_zulia ;;
  migrate_comprobantes ;;
  print [Text "Migración de datos a Firestore completada. Por favor, verifica en la consola de Firebase."] ;;
  print [Text "Recuerda: Una vez que los datos estén en Firestore, tu backend en Render utilizará Firestore y no tus archivos JSON locales."] ;;
  print [Text "Asegúrate de configurar la variable de entorno FIREBASE_SERVICE_ACCOUNT_KEY en Render para que tu backend pueda conectarse a Firestore."].

(** The eight steps of [migrate_data], by the fixture each one handles. *)
Definition migrate_fixture (f : fixture) : M unit :=
  match f with
  | Configuracion => migrate_configuracion
  | Numeros => migrate_numeros
  | HorariosZulia => migrate_horarios_zulia
  | Ganadores => migrate_ganadores
  | Premios => migrate_premios
  | Ventas => migrate_ventas
  | ResultadosZulia => migrate_resultados_zulia
  | Comprobantes => migrate_comprobantes
  end.

(** *** The credential block at the top of the script *)

(** [os.environ.get('FIREBASE_SERVICE_ACCOUNT_KEY')]. *)
Variable environ : option string.

(** [credentials.Certificate] on a source, [json.loads] of the blob
    included: the exception it raises, if any. *)
Variable certificate : credential -> option exn.

(** [firebase_admin.initialize_app(cred)] and [firestore.client()]. *)
Variable connect : credential -> option exn.

(** [if cred_json: ... else: ...]: a blob is used when the variable is
    set to a non-empty text. *)
Definition credential_source : credential :=
  match environ with
  | Some cred_json =>
      if negb (String.eqb cred_json "")
      then FromEnvironment cred_json
      else FromFile SERVICE_ACCOUNT_FILE
  | None => FromFile SERVICE_ACCOUNT_FILE
  end.

Definition initialize : M unit :=
  let cred := credential_source in
  match certificate cred with
  | Some e => lift (Raise e)
  | None =>
      match connect cred with
      | Some e => lift (Raise e)
      | None => print [Text "Firebase Admin SDK inicializado exitosamente."]
      end
  end.

(** The script from top to bottom.  [exit()] ends the run: the result is
    [false] and [migrate_data] is not reached. *)
Definition main : M bool :=
  ready <- try_except
             (initialize ;; ret true)
             (fun e =>
                print [Text "Error al inicializar Firebase Admin SDK: "; Err e] ;;
                print [Text "Asegúrate de que el archivo de credenciales de Firebase esté en el directorio correcto"] ;;
                print [Text "o que la variable de entorno 'FIREBASE_SERVICE_ACCOUNT_KEY' esté configurada."] ;;
                ret false) ;;
  if ready : bool then migrate_data ;; ret true else ret false.

End Run.

End Migrator.

(** ** Vocabulary of the statements *)
Module Spec.
Import Migrator.

(** [ceil(n / d)] for a positive [d]. *)
Definition ceil_div (n d : nat) : nat := (n + d - 1) / d.

(** The segments the batching loops cut a list into:
    [data[i:i + batch_size]] for [i] in [range(0, len(data), batch_size)]. *)
Definition segments (data : list json) : list (list json) :=
  map (fun i => firstn batch_size (skipn i data))
      (Py.range 0 (length data) batch_size).

(** The fixtures of each write strategy. *)
Definition batched (f : fixture) : bool :=
  match f with Numeros | Ventas => true | _ => false end.

Definition unbatched (f : fixture) : bool :=
  match f with Ganadores | ResultadosZulia | Comprobantes => true | _ => false end.

Definition collection_of (f : fixture) : string :=
  match f with
  | Configuracion => "configuracion"
  | Numeros => "numeros"
  | HorariosZulia => "horarios_zulia"
  | Ganadores => "ganadores"
  | Premios => "premios"
  | Ventas => "ventas"
  | ResultadosZulia => "resultados_zulia"
  | Comprobantes => "comprobantes"
  end.

(** The console lines of the loops. *)
Definition commit_ok_line (f : fixture) (done : nat) : line :=
  match f with
  | Numeros => [Text "Batch de números comprometido, total: "; Num done]
  | _ => [Text "Batch de ventas comprometido, total: "; Num done]
  end.

Definition commit_error_line (f : fixture) (e : exn) : line :=
  match f with
  | Numeros => [Text "Error al comprometer batch de números: "; Err e]
  | _ => [Text "Error al comprometer batch de ventas: "; Err e]
  end.

Definition record_error_line (f : fixture) (record : json) (e : exn) : line :=
  match f with
  | Ganadores => [Text "Error al migrar ganador: "; Repr record; Text " - "; Err e]
  | ResultadosZulia =>
      [Text "Error al migrar resultado de Zulia: "; Repr record; Text " - "; Err e]
  | _ => [Text "Error al migrar comprobante: "; Repr record; Text " - "; Err e]
  end.

(** The line that closes the loop of a list fixture. *)
Definition summary_line (f : fixture) (total : nat) : line :=
  match f with
  | Numeros => [Text "Migrados "; Num total; Text " números a la colección 'numeros'."]
  | Ganadores =>
      [Text "Migrados "; Num total; Text " ganadores a la colección 'ganadores'."]
  | Ventas => [Text "Migradas "; Num total; Text " ventas a la colección 'ventas'."]
  | ResultadosZulia =>
      [Text "Migrados "; Num total;
       Text " resultados de Zulia a la colección 'resultados_zulia'."]
  | _ =>
      [Text "Migrados "; Num total;
       Text " comprobantes a la colección 'comprobantes'."]
  end.

(** What [load_json] prints for a file, if anything. *)
Definition load_lines (filepath : string) (file : fixture_file) : list line :=
  match file with
  | Absent =>
      [ [Text "Advertencia: Archivo '"; Text filepath;
         Text "' no encontrado. Se omitirá la migración para este archivo."] ]
  | Malformed e =>
      [ [Text "Error al decodificar JSON en '"; Text filepath; Text "': "; Err e] ]
  | Unreadable e =>
      [ [Text "Error al cargar '"; Text filepath; Text "': "; Err e] ]
  | Holds _ => []
  end.

(** What [load_json] returns for a file. *)
Definition loaded (file : fixture_file) : json :=
  match file with
  | Holds v => v
  | _ => JNull
  end.

(** A fixture with nothing to migrate: no file, a file that does not load
    (a zero-byte file is [Malformed]), or a file holding an empty value. *)
Definition nothing_to_migrate (file : fixture_file) : Prop :=
  Py.truthy (loaded file) = false.

Section Staging.

Variable encode_error : json -> option exn.

(** The write the numbers loop stages for an element, or the exception that
    staging it raises. *)
Definition numero_write (numero_item : json) : result write :=
  match Py.getitem numero_item "numero" with
  | Raise e => Raise e
  | Ok numero =>
      match document "numeros" numero with
      | Raise e => Raise e
      | Ok doc_ref =>
          match encode_error numero_item with
          | Some e => Raise e
          | None => Ok (Write doc_ref numero_item)
          end
      end
  end.

(** The same for the sales loop. *)
Definition venta_write (venta : json) : result write :=
  match encode_error venta with
  | Some e => Raise e
  | None => Ok (Write (DocRef "ventas" None) venta)
  end.

Definition staged (f : fixture) (item : json) : result write :=
  match f with
  | Numeros => numero_write item
  | _ => venta_write item
  end.

(** An element the loop of [f] can stage: for numbers, an object whose
    "numero" is a text (or null) and that the client can encode. *)
Definition stageable (f : fixture) (item : json) : Prop :=
  exists wr, staged f item = Ok wr.

Definition writes_of (f : fixture) (items : list json) : list write :=
  flat_map (fun item => match staged f item with Ok wr => [wr] | Raise _ => [] end)
           items.

(** The batches the loop of [f] builds from a list. *)
Definition batches_of (f : fixture) (data : list json) : list (list write) :=
  map (writes_of f) (segments data).

End Staging.

(** The document a write addresses, when its id is chosen by the migrator. *)
Definition target (wr : write) : option (string * string) :=
  match ref_id (w_ref wr) with
  | Some id => Some (ref_collection (w_ref wr), id)
  | None => None
  end.


(** The contents a request submits, each with its collection. *)
Definition payloads (r : request) : list (string * json) :=
  match r with
  | SetDoc collection _ data => [(collection, data)]
  | Commit batch => map (fun wr => (ref_collection (w_ref wr), w_data wr)) batch
  | AddDoc collection data => [(collection, data)]
  end.

(** The contents that come from the fixture files unchanged: the whole
    parsed value for the single-document fixtures, one element of the parsed
    value for the list fixtures, and for the schedule the parsed value under
    the one field "horarios". *)
Inductive verbatim_payload (disk : string -> fixture_file) : string -> json -> Prop :=
  | verbatim_whole (f : fixture) (v : json) :
      f = Configuracion \/ f = Premios ->
      disk (fixture_path f) = Holds v ->
      verbatim_payload disk (collection_of f) v
  | verbatim_horarios (v : json) :
      disk HORARIOS_ZULIA_FILE = Holds v ->
      verbatim_payload disk "horarios_zulia" (JObj [("horarios", v)])
  | verbatim_element (f : fixture) (v : json) (items : list json) (x : json) :
      batched f = true \/ unbatched f = true ->
      disk (fixture_path f) = Holds v ->
      Py.iter v = Ok items ->
      In x items ->
      verbatim_payload disk (collection_of f) x.

(** A request that only submits contents of the fixture files. *)
Definition verbatim (disk : string -> fixture_file) (r : request) : Prop :=
  forall collection data,
    In (collection, data) (payloads r) -> verbatim_payload disk collection data.

(** A write of the numbers or sales loop that carries one element of the
    values that loop iterates over. *)
Definition staged_from (f : fixture) (items : list json) (wr : write) : Prop :=
  ref_collection (w_ref wr) = collection_of f /\ In (w_data wr) items.

(** "Skipped with a warning": the step returns, sends nothing, and prints
    one line. *)
Definition skipped_with_warning (run : result unit * world) (w : world) : Prop :=
  fst run = Ok tt /\
  requests (snd run) = requests w /\
  exists warning, stdout (snd run) = stdout w ++ [warning].

(** A small disk: three numbers, two of them with the same "numero", two
    winners, and no other file. *)
Definition sample_numeros : list json :=
  [ JObj [("numero", JStr "007"); ("comprado", JBool false)];
    JObj [("numero", JStr "014"); ("comprado", JBool false)];
    JObj [("numero", JStr "007"); ("comprado", JBool true)] ].

Definition sample_ganadores : list json :=
  [ JObj [("nombre", JStr "Ana")]; JObj [("nombre", JStr "Luis")] ].

Definition sample_disk (filepath : string) : fixture_file :=
  if String.eqb filepath NUMEROS_FILE then Holds (JArr sample_numeros)
  else if String.eqb filepath GANADORES_FILE then Holds (JArr sample_ganadores)
  else Absent.

(** A service that rejects its first call and accepts the others. *)
Definition first_call_fails (n : nat) : option exn :=
  match n with
  | O => Some (Exn "ServiceUnavailable" "503")
  | S _ => None
  end.

(** A service and a client that accept everything. *)
Definition always_ok (n : nat) : option exn := None.
Definition encodes_all (v : json) : option exn := None.


Definition accepts_all (cred : credential) : option exn := None.

(** A service that rejects every call. *)
Definition always_fails (n : nat) : option exn :=
  Some (Exn "ServiceUnavailable" "503").

(** A numbers fixture of 1001 records, which makes three segments, and one
    of 501 records whose last record has no "numero". *)
Definition numbered (n : nat) : json :=
  JObj [("numero", JStr "007"); ("serie", JInt (Z.of_nat n))].

Definition many_numeros : list json := map numbered (seq 0 1001).

Definition disk_many_numeros (filepath : string) : fixture_file :=
  if String.eqb filepath NUMEROS_FILE then Holds (JArr many_numeros) else Absent.



(** "The migrator issues ceil(N/500) batch submissions" for a list [data]:
    the requests a step adds are commits, as many as that. *)
Definition issues_all_batches (run : result unit * world) (w : world)
  (data : list json) : Prop :=
  exists batches : list (list write),
    requests (snd run) = requests w ++ map Commit batches /\
    length batches = ceil_div (length data) batch_size.

(** A disk whose numbers fixture holds one record without a "numero". *)
Definition disk_numero_without_key (filepath : string) : fixture_file :=
  if String.eqb filepath NUMEROS_FILE
  then Holds (JArr [JObj [("id", JStr "01")]])
  else Absent.

(** A disk whose numbers fixture holds the empty list; no other file exists. *)
Definition disk_empty_numeros (filepath : string) : fixture_file :=
  if String.eqb filepath NUMEROS_FILE then Holds (JArr []) else Absent.

End Spec.

(** ** The loops, step by step

    The bodies of the two batching loops and of the three per-record loops
    differ only in the collection and in the console texts.  Here they are
    once for all fixtures, with the world a step leaves behind. *)
Module Trace.
Import Migrator Spec.

Section Steps.

Variable service : nat -> option exn.
Variable encode_error : json -> option exn.

Definition stage_of (f : fixture) : list write -> json -> M (list write) :=
  match f with
  | Numeros => stage_numero encode_error
  | _ => stage_venta encode_error
  end.

(** The body of [for i in range(0, len(data), batch_size)]. *)
Definition batch_body (f : fixture) (data : json) (total i : nat) : M unit :=
  segment <- lift (Py.slice data i (i + batch_size)) ;;
  items <- lift (Py.iter segment) ;;
  batch <- for_fold items (stage_of f) [] ;;
  try_except
    (batch_commit service batch ;;
     print (commit_ok_line f (Nat.min (i + batch_size) total)))
    (fun e => print (commit_error_line f e)).

(** The world after the commit of one batch and the line that reports it. *)
Definition after_commit (f : fixture) (total i : nat) (batch : list write)
  (w : world) : world :=
  match service (length (requests w)) with
  | Some e => with_line (commit_error_line f e) (with_request (Commit batch) w)
  | None =>
      with_line (commit_ok_line f (Nat.min (i + batch_size) total))
                (apply_batch batch (with_request (Commit batch) w))
  end.

(** The world after the loop over the segments that start at [starts]. *)
Definition after_batches (f : fixture) (data : list json) (total : nat)
  (starts : list nat) (w : world) : world :=
  fold_left
    (fun acc i =>
       after_commit f total i
         (writes_of encode_error f (firstn batch_size (skipn i data))) acc)
    starts w.

(** The body of [for record in data]. *)
Definition add_one (f : fixture) (record : json) : M unit :=
  try_except
    (collection_add service (collection_of f) record)
    (fun e => print (record_error_line f record e)).

(** The world after the write of one record. *)
Definition after_add (f : fixture) (record : json) (w : world) : world :=
  match service (length (requests w)) with
  | Some e =>
      with_line (record_error_line f record e)
                (with_request (AddDoc (collection_of f) record) w)
  | None =>
      apply_request (AddDoc (collection_of f) record)
                    (with_request (AddDoc (collection_of f) record) w)
  end.

End Steps.

(** [emits P m Q]: whatever the world, [m] only adds requests that satisfy
    [P], and a value it returns satisfies [Q]. *)
Definition emits {A} (P : request -> Prop) (m : M A) (Q : A -> Prop) : Prop :=
  forall w,
    (exists new, requests (snd (m w)) = requests w ++ new /\ Forall P new) /\
    (forall a, fst (m w) = Ok a -> Q a).

End Trace.

(** ** Vocabulary of the further properties *)
Module Effects.
Import Migrator Spec Trace.

(** The records of a per-record loop whose write the service accepts, when
    the first write is call number [base]. *)
Fixpoint accepted (service : nat -> option exn) (base : nat) (records : list json)
  : list json :=
  match records with
  | [] => []
  | record :: rest =>
      match service base with
      | None => record :: accepted service (S base) rest
      | Some _ => accepted service (S base) rest
      end
  end.

(** The same for whole segments of a batching loop: a segment counts when
    its commit is accepted. *)
Fixpoint accepted_segments (service : nat -> option exn) (base : nat)
  (segs : list (list json)) : list (list json) :=
  match segs with
  | [] => []
  | segment :: rest =>
      match service base with
      | None => segment :: accepted_segments service (S base) rest
      | Some _ => accepted_segments service (S base) rest
      end
  end.

(** The store after the requests [reqs], the first of which is call number
    [base]: the accepted ones applied in order, the rejected ones skipped. *)
Fixpoint replay (service : nat -> option exn) (base : nat) (reqs : list request)
  (w : world) : world :=
  match reqs with
  | [] => w
  | r :: rest =>
      replay service (S base) rest
             (match service base with
              | None => apply_request r w
              | Some _ => w
              end)
  end.

(** The text under which an element of the numbers fixture is stored. *)
Definition numero_of (item : json) : option string :=
  match Py.getitem item "numero" with
  | Ok (JStr numero) => Some numero
  | _ => None
  end.

(** The last element of [data] stored under [numero]. *)
Fixpoint last_numero (numero : string) (data : list json) : option json :=
  match data with
  | [] => None
  | item :: rest =>
      match last_numero numero rest with
      | Some later => Some later
      | None =>
          match numero_of item with
          | Some n => if String.eqb n numero then Some item else None
          | None => None
          end
      end
  end.

(** A value that is neither a sequence nor a mapping. *)
Definition scalar (v : json) : bool :=
  match v with
  | JNull | JBool _ | JInt _ | JFloat _ => true
  | JStr _ | JArr _ | JObj _ => false
  end.

Definition list_fixture (f : fixture) : bool := batched f || unbatched f.

(** A fixture file every step of [migrate_data] gets through: nothing to
    migrate, any value for the three single-document fixtures, a list of
    elements that can be staged for the two batching loops, anything a [for]
    loop can visit for the three per-record loops. *)
Definition conforming (encode_error : json -> option exn) (f : fixture)
  (file : fixture_file) : Prop :=
  nothing_to_migrate file \/
  match f with
  | Configuracion | Premios | HorariosZulia => True
  | Numeros | Ventas =>
      exists data, file = Holds (JArr data) /\ Forall (stageable encode_error f) data
  | Ganadores | ResultadosZulia | Comprobantes =>
      exists items, Py.iter (loaded file) = Ok items
  end.


(** The console lines of the single-document steps. *)
Definition set_ok_line (f : fixture) : line :=
  match f with
  | Configuracion =>
      [Text "Configuración migrada exitosamente a 'configuracion/general'."]
  | _ => [Text "Premios migrados exitosamente a 'premios/general'."]
  end.

Definition set_error_line (f : fixture) (e : exn) : line :=
  match f with
  | Configuracion => [Text "Error al migrar configuración: "; Err e]
  | HorariosZulia => [Text "Error al migrar horarios de Zulia: "; Err e]
  | _ => [Text "Error al migrar premios: "; Err e]
  end.

(** The three lines of the credential block when it fails. *)
Definition credential_error_lines (e : exn) : list line :=
  [ [Text "Error al inicializar Firebase Admin SDK: "; Err e];
    [Text "Asegúrate de que el archivo de credenciales de Firebase esté en el directorio correcto"];
    [Text "o que la variable de entorno 'FIREBASE_SERVICE_ACCOUNT_KEY' esté configurada."] ].

(** The warning of [load_json] for a fixture that is not there. *)
Definition absent_line (f : fixture) : line :=
  [Text "Advertencia: Archivo '"; Text (fixture_path f);
   Text "' no encontrado. Se omitirá la migración para este archivo."].

(** The console of a run that finds its credential and no fixture. *)
Definition lines_without_fixtures : list line :=
  [ [Text "Firebase Admin SDK inicializado exitosamente."];
    [Text "Iniciando migración de datos a Firestore..."] ]
  ++ map absent_line all_fixtures
  ++ [ [Text "Migración de datos a Firestore completada. Por favor, verifica en la consola de Firebase."];
       [Text "Recuerda: Una vez que los datos estén en Firestore, tu backend en Render utilizará Firestore y no tus archivos JSON locales."];
       [Text "Asegúrate de configurar la variable de entorno FIREBASE_SERVICE_ACCOUNT_KEY en Render para que tu backend pueda conectarse a Firestore."] ].

(** A directory without any fixture. *)
Definition empty_disk (filepath : string) : fixture_file := Absent.

(** Two worlds with the same destination content. *)
Definition same_store (w w' : world) : Prop :=
  docs w = docs w' /\ assigned w = assigned w'.

(** [logged service m]: what [m] leaves in the store is what the requests it
    issued leave there, replayed in order against the service. *)
Definition logged {A} (service : nat -> option exn) (m : M A) : Prop :=
  forall w, exists new,
    requests (snd (m w)) = requests w ++ new /\
    docs (snd (m w)) = docs (replay service (length (requests w)) new w) /\
    assigned (snd (m w)) = assigned (replay service (length (requests w)) new w).

(** [visits paths m]: [m] returns, and the files it loads are [paths]. *)
Definition visits (paths : list string) (m : M unit) : Prop :=
  forall w, fst (m w) = Ok tt /\ loads (snd (m w)) = loads w ++ paths.

(** Disks for the edge cases: a number where a list is expected, an object
    where a list is expected, a schedule that is a number. *)
Definition disk_scalar_ganadores (filepath : string) : fixture_file :=
  if String.eqb filepath GANADORES_FILE then Holds (JInt 5) else Absent.

Definition disk_object_ganadores (filepath : string) : fixture_file :=
  if String.eqb filepath GANADORES_FILE
  then Holds (JObj [("primero", JStr "Ana"); ("segundo", JStr "Luis")])
  else Absent.

Definition disk_scalar_horarios (filepath : string) : fixture_file :=
  if String.eqb filepath HORARIOS_ZULIA_FILE then Holds (JInt 5) else Absent.

Definition disk_configuracion (filepath : string) : fixture_file :=
  if String.eqb filepath CONFIGURACION_FILE
  then Holds (JObj [("precio", JInt 3)])
  else Absent.

(** A disk with two sales and nothing else. *)
Definition sample_ventas : list json :=
  [ JObj [("ticket", JInt 1)]; JObj [("ticket", JInt 2)] ].

Definition disk_sample_ventas (filepath : string) : fixture_file :=
  if String.eqb filepath VENTAS_FILE then Holds (JArr sample_ventas) else Absent.

(** A key file that exists but cannot be read. *)
Definition unreadable_key_disk (filepath : string) : EncodeKey.key_file :=
  EncodeKey.Unreadable (Exn "PermissionError" "Permission denied").


End Effects.

(** ** Vocabulary for the encoder's text *)
Module EncodedText.
Import Base64.

(** A character base64 text is made of. *)
Definition base64_char (c : byte) : Prop := In c alphabet \/ c = pad.

Definition newline : byte := "010"%byte.

(** The text between the markers of an output, as bytes. *)
Definition printed_key (out : list line) : list byte :=
  match EncodeKey.between_markers out with
  | Some text => list_byte_of_string text
  | None => []
  end.

End EncodedText.

(** ** The time helpers of migrate_to_firestore.py *)
Module Timestamp.

(** A [datetime] object: its calendar fields and, for an aware one, the
    offset of its time zone from UTC in seconds.  Python only builds
    datetimes whose fields are in range. *)
Record datetime : Type := DateTime {
  year : N;
  month : N;
  day : N;
  hour : N;
  minute : N;
  second : N;
  microsecond : N;
  utcoffset : option Z
}.


Definition digit (n : N) : ascii := ascii_of_N (48 + n).

(** A number as decimal digits, zero-padded to [width] (the low [width]
    digits; all of them for a number below [10 ^ width]). *)
Fixpoint zero_padded (width : nat) (n : N) : list ascii :=
  match width with
  | O => []
  | S width' => zero_padded width' (n / 10) ++ [digit (n mod 10)]
  end.

(** [dt_object.strftime('%Y-%m-%d %H:%M:%S')].  For a year below 1000 the
    padding of [%Y] is the platform's; the statements keep to
    [valid_datetime]. *)
Definition strftime_chars (dt_object : datetime) : list ascii :=
  zero_padded 4 (year dt_object) ++ ["-"%char]
  ++ zero_padded 2 (month dt_object) ++ ["-"%char]
  ++ zero_padded 2 (day dt_object) ++ [" "%char]
  ++ zero_padded 2 (hour dt_object) ++ [":"%char]
  ++ zero_padded 2 (minute dt_object) ++ [":"%char]
  ++ zero_padded 2 (second dt_object).

Definition format_timestamp (dt_object : datetime) : string :=
  string_of_list_ascii (strftime_chars dt_object).

(** What the formatted text shows of a datetime. *)
Definition shown (dt : datetime) : N * N * N * N * N * N :=
  (year dt, month dt, day dt, hour dt, minute dt, second dt).

(** The last second of 2024 in Caracas, and the same second on a clock
    without a zone, a quarter of a second later. *)
Definition new_years_eve : datetime :=
  DateTime 2024 12 31 23 59 59 0 (Some (-14400)%Z).

Definition new_years_eve_naive : datetime :=
  DateTime 2024 12 31 23 59 59 250000 None.

End Timestamp.

(** * Proofs *)

Ltac euclid := zify; Z.to_euclidean_division_equations; lia.

(** * Facts about Base64 *)
Module Base64Facts.
Import Base64.

Lemma char_sextet_char (n : N) :
  (n < 64)%N -> char_sextet (sextet_char n) = Some n.
Proof.
  intros Hn. destruct n as [|p]; [reflexivity|].
  do 6 (destruct p as [p|p|]; try lia; try reflexivity).
Qed.

Lemma sextet_char_not_pad (n : N) :
  (n < 64)%N -> Byte.eqb (sextet_char n) pad = false.
Proof.
  intros Hn. destruct n as [|p]; [reflexivity|].
  do 6 (destruct p as [p|p|]; try lia; try reflexivity).
Qed.

Lemma sextets2_chars (s1 s2 : N) :
  (s1 < 64)%N -> (s2 < 64)%N ->
  sextets2 (sextet_char s1) (sextet_char s2) = Some (s1 * 64 + s2)%N.
Proof.
  intros H1 H2. unfold sextets2. by rewrite !char_sextet_char.
Qed.

Lemma sextets3_chars (s1 s2 s3 : N) :
  (s1 < 64)%N -> (s2 < 64)%N -> (s3 < 64)%N ->
  sextets3 (sextet_char s1) (sextet_char s2) (sextet_char s3)
  = Some ((s1 * 64 + s2) * 64 + s3)%N.
Proof.
  intros H1 H2 H3. unfold sextets3.
  by rewrite sextets2_chars, char_sextet_char.
Qed.

Lemma sextets4_chars (s1 s2 s3 s4 : N) :
  (s1 < 64)%N -> (s2 < 64)%N -> (s3 < 64)%N -> (s4 < 64)%N ->
  sextets4 (sextet_char s1) (sextet_char s2) (sextet_char s3) (sextet_char s4)
  = Some (((s1 * 64 + s2) * 64 + s3) * 64 + s4)%N.
Proof.
  intros H1 H2 H3 H4. unfold sextets4.
  by rewrite sextets3_chars, char_sextet_char.
Qed.

Lemma join2 (n : N) :
  (n < 4096 -> n / 64 * 64 + n mod 64 = n)%N.
Proof. intros. euclid. Qed.

Lemma join3 (n : N) :
  (n < 262144 -> (n / 4096 * 64 + (n / 64) mod 64) * 64 + n mod 64 = n)%N.
Proof. intros. euclid. Qed.

Lemma join4 (n : N) :
  (n < 16777216 ->
   ((n / 262144 * 64 + (n / 4096) mod 64) * 64 + (n / 64) mod 64) * 64
   + n mod 64 = n)%N.
Proof. intros. euclid. Qed.

Lemma bytes_of_to_N (bs : list byte) : bytes_of (map Byte.to_N bs) = Some bs.
Proof.
  unfold bytes_of. induction bs as [|b bs IH]; [reflexivity|].
  cbn. rewrite Byte.of_to_N. cbn. fold (mapM Byte.of_N (map Byte.to_N bs)).
  rewrite IH. reflexivity.
Qed.

Lemma bytes_of_1 (n : N) (a : byte) :
  n = Byte.to_N a -> bytes_of [n] = Some [a].
Proof. intros ->. apply (bytes_of_to_N [a]). Qed.

Lemma bytes_of_2 (n m : N) (a b : byte) :
  n = Byte.to_N a -> m = Byte.to_N b -> bytes_of [n; m] = Some [a; b].
Proof. intros -> ->. apply (bytes_of_to_N [a; b]). Qed.

Lemma bytes_of_3 (n m k : N) (a b c : byte) :
  n = Byte.to_N a -> m = Byte.to_N b -> k = Byte.to_N c ->
  bytes_of [n; m; k] = Some [a; b; c].
Proof. intros -> -> ->. apply (bytes_of_to_N [a; b; c]). Qed.

Lemma decode_encode1 (a : byte) : b64decode (encode1 a) = Some [a].
Proof.
  pose proof (Byte.to_N_bounded a) as Ha.
  unfold encode1. cbn [b64decode].
  change (Byte.eqb pad pad) with true. cbn match.
  rewrite sextets2_chars, join2 by euclid.
  cbn [mbind option_bind].
  apply bytes_of_1. euclid.
Qed.

Lemma decode_encode2 (a b : byte) : b64decode (encode2 a b) = Some [a; b].
Proof.
  pose proof (Byte.to_N_bounded a) as Ha.
  pose proof (Byte.to_N_bounded b) as Hb.
  unfold encode2. cbn [b64decode].
  change (Byte.eqb pad pad) with true. cbn match.
  rewrite sextet_char_not_pad by euclid.
  rewrite sextets3_chars, join3 by euclid.
  cbn [mbind option_bind].
  apply bytes_of_2; euclid.
Qed.

Lemma decode_encode3 (a b c : byte) (rest : list byte) :
  b64decode (encode3 a b c ++ rest)
  = back ← b64decode rest; Some (a :: b :: c :: back).
Proof.
  pose proof (Byte.to_N_bounded a) as Ha.
  pose proof (Byte.to_N_bounded b) as Hb.
  pose proof (Byte.to_N_bounded c) as Hc.
  unfold encode3. cbn [app b64decode].
  rewrite sextet_char_not_pad by euclid.
  rewrite sextets4_chars, join4 by euclid.
  cbn [mbind option_bind].
  rewrite (bytes_of_3 _ _ _ a b c) by euclid.
  cbn [mbind option_bind].
  destruct (b64decode rest); reflexivity.
Qed.

Lemma decode_encode_upto (n : nat) :
  forall bs : list byte, length bs <= n -> b64decode (b64encode bs) = Some bs.
Proof.
  induction n as [|n IH]; intros bs Hlen.
  - destruct bs; [reflexivity | cbn in Hlen; lia].
  - destruct bs as [|a [|b [|c rest]]].
    + reflexivity.
    + apply decode_encode1.
    + apply decode_encode2.
    + change (b64encode (a :: b :: c :: rest))
        with (encode3 a b c ++ b64encode rest).
      rewrite decode_encode3, IH by (cbn in Hlen; lia). reflexivity.
Qed.

Lemma b64decode_b64encode (bs : list byte) :
  b64decode (b64encode bs) = Some bs.
Proof. exact (decode_encode_upto (length bs) bs (le_n _)). Qed.
End Base64Facts.

(** * Facts about the migrator *)
Module MigratorFacts.
Import Migrator Spec Trace.

(** ** The store only changes the store *)

Lemma requests_apply_write wr w : requests (apply_write wr w) = requests w.
Proof. unfold apply_write. by destruct (ref_id (w_ref wr)). Qed.

Lemma stdout_apply_write wr w : stdout (apply_write wr w) = stdout w.
Proof. unfold apply_write. by destruct (ref_id (w_ref wr)). Qed.

Lemma apply_batch_cons wr batch w :
  apply_batch (wr :: batch) w = apply_batch batch (apply_write wr w).
Proof. reflexivity. Qed.

Lemma requests_apply_batch batch w : requests (apply_batch batch w) = requests w.
Proof.
  revert w. induction batch as [|wr batch IH]; intros w; [done|].
  by rewrite apply_batch_cons, IH, requests_apply_write.
Qed.

Lemma stdout_apply_batch batch w : stdout (apply_batch batch w) = stdout w.
Proof.
  revert w. induction batch as [|wr batch IH]; intros w; [done|].
  by rewrite apply_batch_cons, IH, stdout_apply_write.
Qed.

Lemma requests_apply_request r w : requests (apply_request r w) = requests w.
Proof.
  destruct r; cbn [apply_request];
    auto using requests_apply_write, requests_apply_batch.
Qed.

Lemma stdout_apply_request r w : stdout (apply_request r w) = stdout w.
Proof.
  destruct r; cbn [apply_request];
    auto using stdout_apply_write, stdout_apply_batch.
Qed.

(** ** Loops whose body always returns *)

Lemma for_each_total {A} (xs : list A) (body : A -> M unit) (f : A -> world -> world) :
  (forall x w, In x xs -> body x w = (Ok tt, f x w)) ->
  forall w, for_each xs body w = (Ok tt, fold_left (fun acc x => f x acc) xs w).
Proof.
  induction xs as [|x xs IH]; intros Hbody w; cbn; [done|].
  unfold bind. rewrite Hbody by (by left).
  apply IH. intros y w' Hy. apply Hbody. by right.
Qed.

Lemma load_json_eq disk filepath w :
  load_json disk filepath w
  = (Ok (loaded (disk filepath)),
     fold_left (fun acc l => with_line l acc) (load_lines filepath (disk filepath))
               (with_load filepath w)).
Proof. unfold load_json. by destruct (disk filepath). Qed.

(** ** The per-record loops *)
Section Unbatched.

Variable service : nat -> option exn.
Variable f : fixture.

Lemma add_one_total record w :
  add_one service f record w = (Ok tt, after_add service f record w).
Proof.
  unfold add_one, after_add, try_except, collection_add, call, print.
  by destruct (service (length (requests w))).
Qed.

Lemma requests_after_add record w :
  requests (after_add service f record w)
  = requests w ++ [AddDoc (collection_of f) record].
Proof.
  unfold after_add. destruct (service _); [done|].
  by rewrite requests_apply_request.
Qed.

Lemma requests_add_all records w :
  requests (fold_left (fun acc x => after_add service f x acc) records w)
  = requests w ++ map (AddDoc (collection_of f)) records.
Proof.
  revert w. induction records as [|x xs IH]; intros w; cbn.
  - by rewrite app_nil_r.
  - rewrite IH, requests_after_add. by rewrite <- app_assoc.
Qed.

Lemma stdout_add_all_keeps records w l :
  In l (stdout w) ->
  In l (stdout (fold_left (fun acc x => after_add service f x acc) records w)).
Proof.
  revert w. induction records as [|x xs IH]; intros w Hin; cbn; [done|].
  apply IH. unfold after_add. destruct (service _).
  - cbn. apply in_or_app. by left.
  - by rewrite stdout_apply_request.
Qed.

Lemma add_failure_reported records : forall w k record e,
  records !! k = Some record ->
  service (length (requests w) + k) = Some e ->
  In (record_error_line f record e)
     (stdout (fold_left (fun acc x => after_add service f x acc) records w)).
Proof.
  induction records as [|x xs IH]; intros w k record e Hk Hfail; [done|].
  destruct k as [|k]; cbn in Hk |- *.
  - injection Hk as ->. apply stdout_add_all_keeps.
    unfold after_add. rewrite Nat.add_0_r in Hfail. rewrite Hfail.
    cbn. apply in_or_app. right. by left.
  - apply (IH _ k); [done|].
    rewrite requests_after_add, length_app. cbn.
    by replace (length (requests w) + 1 + k) with (length (requests w) + S k) by lia.
Qed.

End Unbatched.

Lemma migrate_unbatched_eq disk service enc (f : fixture) :
  unbatched f = true ->
  migrate_fixture disk service enc f
  = (data <- load_json disk (fixture_path f) ;;
     if Py.truthy data then
       items <- lift (Py.iter data) ;;
       for_each items (add_one service f) ;;
       total <- lift (Py.len data) ;;
       print (summary_line f total)
     else ret tt).
Proof. destruct f; try discriminate; reflexivity. Qed.

Lemma migrate_batched_eq disk service enc (f : fixture) :
  batched f = true ->
  migrate_fixture disk service enc f
  = (data <- load_json disk (fixture_path f) ;;
     if Py.truthy data then
       total <- lift (Py.len data) ;;
       for_each (Py.range 0 total batch_size) (batch_body service enc f data total) ;;
       print (summary_line f total)
     else ret tt).
Proof. destruct f; try discriminate; reflexivity. Qed.

Lemma migrate_unbatched_run disk service enc (f : fixture) records w :
  unbatched f = true ->
  disk (fixture_path f) = Holds (JArr records) ->
  migrate_fixture disk service enc f w
  = (Ok tt,
     match records with
     | [] => with_load (fixture_path f) w
     | _ =>
         with_line (summary_line f (length records))
           (fold_left (fun acc x => after_add service f x acc) records
                      (with_load (fixture_path f) w))
     end).
Proof.
  intros Hf Hdisk. rewrite (migrate_unbatched_eq _ _ _ _ Hf).
  unfold bind at 1. rewrite load_json_eq, Hdisk. cbn [loaded load_lines fold_left].
  destruct records as [|record records']; [done|].
  set (records := record :: records') in *.
  change (Py.truthy (JArr records)) with true. cbn match.
  unfold bind, lift. cbn [Py.iter Py.len].
  rewrite (for_each_total records _ (after_add service f))
    by (intros; apply add_one_total).
  reflexivity.
Qed.

(** ** Slicing a list into segments *)

Lemma range_from_concat {A} (data : list A) (step : nat) :
  0 < step ->
  forall fuel start,
    length data <= start + fuel * step ->
    concat (map (fun i => firstn step (skipn i data))
                (Py.range_from fuel start (length data) step))
    = skipn start data.
Proof.
  intros Hstep. induction fuel as [|fuel IH]; intros start Hfuel;
    cbn [Py.range_from].
  - symmetry. apply skipn_all2. lia.
  - destruct (Nat.ltb_spec start (length data)) as [Hlt|Hge]; cbn [map concat].
    + rewrite IH by lia.
      rewrite <- (firstn_skipn step (skipn start data)) at 2.
      f_equal. rewrite skipn_skipn. f_equal. lia.
    + symmetry. apply skipn_all2. lia.
Qed.

Lemma ceil_div_step (start stop : nat) :
  start < stop ->
  S ((stop - (start + 500) + 500 - 1) / 500) = (stop - start + 500 - 1) / 500.
Proof.
  intros Hlt. destruct (le_lt_dec stop (start + 500)) as [Hlast|Hmore].
  - replace (stop - (start + 500)) with 0 by lia.
    replace (stop - start + 500 - 1) with (stop - start - 1 + 1 * 500) by lia.
    rewrite Nat.div_add by lia.
    rewrite (Nat.div_small (stop - start - 1)) by lia. reflexivity.
  - replace (stop - start + 500 - 1)
      with (stop - (start + 500) + 500 - 1 + 1 * 500) by lia.
    rewrite Nat.div_add by lia. lia.
Qed.

(** [ceil_div n d] is the least number of groups of [d] that hold [n]. *)
Lemma ceil_div_least (n : nat) :
  n <= ceil_div n batch_size * batch_size /\
  (0 < n -> (ceil_div n batch_size - 1) * batch_size < n).
Proof.
  unfold ceil_div, batch_size.
  pose proof (Nat.div_mod_eq (n + 500 - 1) 500) as Hdiv.
  pose proof (Nat.mod_upper_bound (n + 500 - 1) 500) as Hmod.
  split; [lia|]. intros Hn. lia.
Qed.

Lemma range_from_length (fuel start stop : nat) :
  stop <= start + fuel * batch_size ->
  length (Py.range_from fuel start stop batch_size)
  = ceil_div (stop - start) batch_size.
Proof.
  unfold ceil_div, batch_size. revert start.
  induction fuel as [|fuel IH]; intros start Hfuel; cbn [Py.range_from].
  - replace (stop - start) with 0 by lia. reflexivity.
  - destruct (Nat.ltb_spec start stop) as [Hlt|Hge].
    + cbn [length]. rewrite IH by lia. by apply ceil_div_step.
    + replace (stop - start) with 0 by lia. reflexivity.
Qed.

Lemma In_segment {A} (n i : nat) (l : list A) (x : A) :
  In x (firstn n (skipn i l)) -> In x l.
Proof.
  rewrite <- !list_elem_of_In. intros Hin.
  by apply (subseteq_drop i), (subseteq_take n).
Qed.

Lemma segments_concat (data : list json) : concat (segments data) = data.
Proof.
  unfold segments, Py.range.
  rewrite range_from_concat; [done | unfold batch_size; lia | unfold batch_size; lia].
Qed.

Lemma segments_length (data : list json) :
  length (segments data) = ceil_div (length data) batch_size.
Proof.
  unfold segments, Py.range. rewrite length_map, range_from_length.
  - by rewrite Nat.sub_0_r.
  - unfold batch_size. lia.
Qed.

Lemma segments_bounded (data : list json) :
  Forall (fun segment => length segment <= batch_size) (segments data).
Proof.
  unfold segments. apply List.Forall_forall. intros segment Hin.
  apply in_map_iff in Hin as (i & <- & _).
  rewrite length_firstn. lia.
Qed.

(** ** The batching loops *)
Section Batched.

Variable service : nat -> option exn.
Variable enc : json -> option exn.
Variable f : fixture.
Hypothesis Hf : batched f = true.

Lemma stage_of_eq batch item w :
  stage_of enc f batch item w
  = (match staged enc f item with
     | Ok wr => Ok (batch ++ [wr])
     | Raise e => Raise e
     end, w).
Proof.
  destruct f; try discriminate Hf; cbn [stage_of staged].
  - unfold stage_numero, numero_write, bind, lift, batch_set, ret.
    destruct (Py.getitem item "numero") as [numero|e]; [|done].
    destruct (document "numeros" numero) as [ref|e]; [|done].
    by destruct (enc item).
  - unfold stage_venta, venta_write, batch_set, lift, ret.
    by destruct (enc item).
Qed.

Lemma for_fold_stage items :
  Forall (stageable enc f) items ->
  forall acc w,
    for_fold items (stage_of enc f) acc w = (Ok (acc ++ writes_of enc f items), w).
Proof.
  induction 1 as [|item items [wr Hwr] _ IH]; intros acc w; cbn [for_fold].
  - unfold ret, writes_of. cbn. by rewrite app_nil_r.
  - unfold bind. rewrite stage_of_eq, Hwr, IH.
    unfold writes_of. cbn [flat_map]. rewrite Hwr. by rewrite <- app_assoc.
Qed.

Lemma writes_of_data items :
  Forall (stageable enc f) items -> map w_data (writes_of enc f items) = items.
Proof.
  induction 1 as [|item items [wr Hwr] _ IH]; [done|].
  unfold writes_of in *. cbn. rewrite Hwr. cbn. rewrite IH. f_equal.
  destruct f; try discriminate Hf; cbn [staged] in Hwr.
  - unfold numero_write in Hwr.
    destruct (Py.getitem item "numero"); [|done].
    destruct (document "numeros" a); [|done].
    destruct (enc item); [done|]. by injection Hwr as <-.
  - unfold venta_write in Hwr. destruct (enc item); [done|].
    by injection Hwr as <-.
Qed.

Lemma writes_of_length_le items : length (writes_of enc f items) <= length items.
Proof.
  unfold writes_of. induction items as [|item items IH]; cbn; [done|].
  rewrite length_app. destruct (staged enc f item); cbn; lia.
Qed.

Lemma batches_of_bounded data :
  Forall (fun batch => length batch <= batch_size) (batches_of enc f data).
Proof.
  apply List.Forall_forall. intros batch Hin.
  unfold batches_of in Hin. apply in_map_iff in Hin as (segment & <- & Hin).
  pose proof (proj1 (List.Forall_forall _ _) (segments_bounded data) _ Hin) as Hle.
  cbn in Hle. pose proof (writes_of_length_le segment). lia.
Qed.

Lemma batch_body_total data total i w :
  Forall (stageable enc f) (firstn batch_size (skipn i data)) ->
  batch_body service enc f (JArr data) total i w
  = (Ok tt,
     after_commit service f total i
       (writes_of enc f (firstn batch_size (skipn i data))) w).
Proof.
  intros Hok. unfold batch_body, bind, lift. cbn [Py.slice Py.iter].
  replace (i + batch_size - i) with batch_size by lia.
  rewrite (for_fold_stage _ Hok). cbn [app].
  unfold after_commit, try_except, batch_commit, call, print.
  by destruct (service (length (requests w))).
Qed.

Lemma batch_loop_total data total starts w :
  Forall (stageable enc f) data ->
  for_each starts (batch_body service enc f (JArr data) total) w
  = (Ok tt, after_batches service enc f data total starts w).
Proof.
  intros Hok. apply for_each_total. intros i w' _.
  apply batch_body_total.
  apply List.Forall_forall. intros item Hin. apply (proj1 (List.Forall_forall _ _) Hok).
  by apply (In_segment batch_size i).
Qed.

Lemma requests_after_commit total i batch w :
  requests (after_commit service f total i batch w) = requests w ++ [Commit batch].
Proof.
  unfold after_commit. destruct (service _); [done|].
  cbn. by rewrite requests_apply_batch.
Qed.

Lemma requests_after_batches data total starts w :
  requests (after_batches service enc f data total starts w)
  = requests w
    ++ map (fun i => Commit (writes_of enc f (firstn batch_size (skipn i data))))
           starts.
Proof.
  unfold after_batches. revert w.
  induction starts as [|i starts IH]; intros w; cbn.
  - by rewrite app_nil_r.
  - rewrite IH, requests_after_commit. by rewrite <- app_assoc.
Qed.



Lemma migrate_batched_run disk data w :
  disk (fixture_path f) = Holds (JArr data) ->
  Forall (stageable enc f) data ->
  migrate_fixture disk service enc f w
  = (Ok tt,
     match data with
     | [] => with_load (fixture_path f) w
     | _ =>
         with_line (summary_line f (length data))
           (after_batches service enc f data (length data)
              (Py.range 0 (length data) batch_size)
              (with_load (fixture_path f) w))
     end).
Proof.
  intros Hdisk Hok. rewrite (migrate_batched_eq _ _ _ _ Hf).
  unfold bind at 1. rewrite load_json_eq, Hdisk. cbn [loaded load_lines fold_left].
  destruct data as [|item data']; [done|].
  set (data := item :: data') in *.
  change (Py.truthy (JArr data)) with true. cbn match.
  unfold bind, lift. cbn [Py.len].
  rewrite (batch_loop_total _ _ _ _ Hok). reflexivity.
Qed.

Lemma requests_migrate_batched disk data w :
  disk (fixture_path f) = Holds (JArr data) ->
  Forall (stageable enc f) data ->
  requests (snd (migrate_fixture disk service enc f w))
  = requests w ++ map Commit (batches_of enc f data).
Proof.
  intros Hdisk Hok. rewrite (migrate_batched_run _ _ _ Hdisk Hok). cbn [snd].
  destruct data as [|item data']; [by rewrite app_nil_r|].
  cbn [requests with_line]. rewrite requests_after_batches.
  unfold batches_of, segments. by rewrite !map_map.
Qed.

Lemma batches_of_data data :
  Forall (stageable enc f) data ->
  map (map w_data) (batches_of enc f data) = segments data.
Proof.
  intros Hok. unfold batches_of. rewrite map_map.
  rewrite <- (map_id (segments data)) at 2.
  apply map_ext_in. intros segment Hin. apply writes_of_data.
  apply List.Forall_forall. intros item Hitem.
  apply (proj1 (List.Forall_forall _ _) Hok).
  unfold segments in Hin. apply in_map_iff in Hin as (i & <- & _).
  by apply (In_segment batch_size i).
Qed.

End Batched.


(** ** Which document a batch leaves under a key *)

Lemma docs_apply_write_other wr w key :
  target wr <> Some key -> docs (apply_write wr w) !! key = docs w !! key.
Proof.
  unfold target, apply_write. destruct (ref_id (w_ref wr)) as [id|]; [|done].
  intros Hne. cbn. apply lookup_insert_ne. congruence.
Qed.

Lemma docs_apply_write_same wr w key :
  target wr = Some key -> docs (apply_write wr w) !! key = Some (w_data wr).
Proof.
  unfold target, apply_write. destruct (ref_id (w_ref wr)) as [id|]; [|done].
  intros [= <-]. cbn. apply lookup_insert_eq.
Qed.



Section LastWriteWins.

Variable service : nat -> option exn.
Variable enc : json -> option exn.
Variable numero : string.

Lemma numero_write_target item wr :
  numero_write enc item = Ok wr ->
  w_data wr = item /\
  (target wr = Some ("numeros", numero) <-> Py.getitem item "numero" = Ok (JStr numero)).
Proof.
  unfold numero_write, target.
  destruct (Py.getitem item "numero") as [v|e]; [|done].
  destruct (document "numeros" v) as [ref|e] eqn:Hdoc; [|done].
  destruct (enc item); [done|]. intros [= <-]. cbn [w_data w_ref].
  split; [done|].
  destruct v; cbn [document] in Hdoc; try discriminate Hdoc.
  - injection Hdoc as <-. cbn. split; congruence.
  - destruct (Nat.even _); [|discriminate Hdoc].
    injection Hdoc as <-. cbn. split; congruence.
Qed.





End LastWriteWins.

(** ** The starts of the segments, one by one *)









(** ** What a computation sends *)
Section Emits.

Variable P : request -> Prop.

Lemma emits_ret {A} (a : A) (Q : A -> Prop) : Q a -> emits P (ret a) Q.
Proof.
  intros Ha w. split; [exists []; by rewrite app_nil_r|].
  by intros ? [= <-].
Qed.

Lemma emits_lift {A} (r : result A) (Q : A -> Prop) :
  (forall a, r = Ok a -> Q a) -> emits P (lift r) Q.
Proof. intros Hr w. split; [exists []; by rewrite app_nil_r|done]. Qed.

Lemma emits_print (l : line) (Q : unit -> Prop) : Q tt -> emits P (print l) Q.
Proof.
  intros HQ w. split; [exists []; by rewrite app_nil_r|]. by intros [] _.
Qed.

Lemma emits_bind {A B} (m : M A) (k : A -> M B) (Q1 : A -> Prop) (Q2 : B -> Prop) :
  emits P m Q1 -> (forall a, Q1 a -> emits P (k a) Q2) -> emits P (bind m k) Q2.
Proof.
  intros Hm Hk w. unfold bind.
  destruct (Hm w) as [(new1 & Hreq1 & Hnew1) Hval1].
  destruct (m w) as [[a|e] w1]; cbn [fst snd] in *.
  - destruct (Hk a (Hval1 a eq_refl) w1) as [(new2 & Hreq2 & Hnew2) Hval2].
    split; [|done]. exists (new1 ++ new2).
    rewrite Hreq2, Hreq1, <- app_assoc. split; [done|].
    apply Forall_app. by split.
  - split; [by exists new1|done].
Qed.

Lemma emits_try {A} (body : M A) (handler : exn -> M A) (Q : A -> Prop) :
  emits P body Q -> (forall e, emits P (handler e) Q) ->
  emits P (try_except body handler) Q.
Proof.
  intros Hbody Hhandler w. unfold try_except.
  destruct (Hbody w) as [(new1 & Hreq1 & Hnew1) Hval1].
  destruct (body w) as [[a|e] w1]; cbn [fst snd] in *.
  - split; [by exists new1|done].
  - destruct (Hhandler e w1) as [(new2 & Hreq2 & Hnew2) Hval2].
    split; [|done]. exists (new1 ++ new2).
    rewrite Hreq2, Hreq1, <- app_assoc. split; [done|].
    apply Forall_app. by split.
Qed.

Lemma emits_call service (r : request) (Q : unit -> Prop) :
  P r -> Q tt -> emits P (call service r) Q.
Proof.
  intros Hr HQ w. unfold call. split.
  - exists [r]. split; [|by constructor].
    destruct (service _); [done|]. cbn [snd]. by rewrite requests_apply_request.
  - by intros [] _.
Qed.

Lemma emits_for_each {A} (xs : list A) (body : A -> M unit) :
  (forall x, In x xs -> emits P (body x) (fun _ => True)) ->
  emits P (for_each xs body) (fun _ => True).
Proof.
  induction xs as [|x xs IH]; intros Hbody; cbn [for_each].
  - by apply emits_ret.
  - apply (emits_bind _ _ (fun _ => True)); [apply Hbody; by left|].
    intros _ _. apply IH. intros y Hy. apply Hbody. by right.
Qed.

Lemma emits_for_fold {A S} (xs : list A) (body : S -> A -> M S) (I : S -> Prop) :
  (forall s x, In x xs -> I s -> emits P (body s x) I) ->
  forall s, I s -> emits P (for_fold xs body s) I.
Proof.
  induction xs as [|x xs IH]; intros Hbody s Hs; cbn [for_fold].
  - by apply emits_ret.
  - apply (emits_bind _ _ I); [apply Hbody; [by left|done]|].
    intros s' Hs'. apply IH; [|done]. intros s'' y Hy. apply Hbody. by right.
Qed.

Lemma emits_load_json disk filepath :
  emits P (load_json disk filepath)
        (fun v => Py.truthy v = true -> disk filepath = Holds v).
Proof.
  intros w. rewrite load_json_eq. cbn [fst snd]. split.
  - exists []. rewrite app_nil_r. split; [|done].
    by destruct (disk filepath).
  - intros v [= <-]. by destruct (disk filepath).
Qed.

End Emits.

(** ** Slices only hold elements of what they slice *)

Lemma chars_substring (s : string) : forall (n m : nat) (x : json),
  In x (Py.chars (substring n m s)) -> In x (Py.chars s).
Proof.
  induction s as [|c s IH]; intros n m x Hin.
  - by destruct n, m.
  - destruct n as [|n]; cbn [substring] in Hin.
    + destruct m as [|m]; [done|]. cbn [Py.chars] in *.
      destruct Hin as [Hin|Hin]; [by left|]. right. by apply (IH 0 m).
    + cbn [Py.chars]. right. by apply (IH n m).
Qed.

Lemma slice_iter (v segment : json) (lo hi : nat) (items : list json) :
  Py.slice v lo hi = Ok segment ->
  Py.iter segment = Ok items ->
  exists all, Py.iter v = Ok all /\ forall x, In x items -> In x all.
Proof.
  destruct v; try discriminate; cbn [Py.slice]; intros [= <-]; cbn [Py.iter];
    intros [= <-]; eexists; (split; [reflexivity|]); intros x Hx.
  - by apply chars_substring in Hx.
  - by apply In_segment in Hx.
Qed.


(** ** Every fixture step sends the fixture's own contents *)
Section Verbatim.

Variable disk : string -> fixture_file.
Variable service : nat -> option exn.
Variable enc : json -> option exn.

Lemma document_collection (collection : string) (id : json) (ref : doc_ref) :
  document collection id = Ok ref -> ref_collection ref = collection.
Proof.
  destruct id; cbn [document]; try discriminate.
  - by intros [= <-].
  - destruct (Nat.even _); [|discriminate]. by intros [= <-].
Qed.

Lemma staged_ref (f : fixture) (item : json) (wr : write) :
  batched f = true ->
  staged enc f item = Ok wr ->
  ref_collection (w_ref wr) = collection_of f /\ w_data wr = item.
Proof.
  intros Hf. destruct f; try discriminate Hf; cbn [staged collection_of].
  - unfold numero_write.
    destruct (Py.getitem item "numero") as [v|e]; [|done].
    destruct (document "numeros" v) as [ref|e] eqn:Hdoc; [|done].
    destruct (enc item); [done|]. intros [= <-]. cbn [w_ref w_data].
    split; [|done]. by apply (document_collection _ v).
  - unfold venta_write. destruct (enc item); [done|]. by intros [= <-].
Qed.

Lemma emits_stage_of (f : fixture) (items : list json) (batch : list write)
  (item : json) :
  batched f = true ->
  In item items ->
  Forall (staged_from f items) batch ->
  emits (verbatim disk) (stage_of enc f batch item) (Forall (staged_from f items)).
Proof.
  intros Hf Hitem Hbatch w. rewrite (stage_of_eq enc f Hf). cbn [fst snd].
  split; [exists []; by rewrite app_nil_r|].
  destruct (staged enc f item) as [wr|e] eqn:Hwr; [|done].
  intros ? [= <-]. apply Forall_app. split; [done|].
  constructor; [|constructor].
  destruct (staged_ref f item wr Hf Hwr) as [Hcoll Hdata].
  split; [done|]. by rewrite Hdata.
Qed.

Lemma verbatim_commit (f : fixture) (v : json) (all items : list json)
  (batch : list write) :
  batched f = true ->
  disk (fixture_path f) = Holds v ->
  Py.iter v = Ok all ->
  (forall x, In x items -> In x all) ->
  Forall (staged_from f items) batch ->
  verbatim disk (Commit batch).
Proof.
  intros Hf Hdisk Hall Hincl Hbatch collection data Hin.
  cbn [payloads] in Hin. apply in_map_iff in Hin as (wr & [= <- <-] & Hwr).
  destruct (proj1 (List.Forall_forall _ _) Hbatch wr Hwr) as [-> Hdata].
  apply (verbatim_element disk f v all); auto.
Qed.

Lemma emits_batch_body (f : fixture) (v : json) (total i : nat) :
  batched f = true ->
  disk (fixture_path f) = Holds v ->
  emits (verbatim disk) (batch_body service enc f v total i) (fun _ => True).
Proof.
  intros Hf Hdisk. unfold batch_body.
  apply (emits_bind _ _ _ (fun segment => Py.slice v i (i + batch_size) = Ok segment));
    [by apply emits_lift|].
  intros segment Hsegment.
  apply (emits_bind _ _ _ (fun items => Py.iter segment = Ok items));
    [by apply emits_lift|].
  intros items Hitems.
  destruct (slice_iter v segment i (i + batch_size) items Hsegment Hitems)
    as (all & Hall & Hincl).
  apply (emits_bind _ _ _ (Forall (staged_from f items))).
  - apply emits_for_fold; [|constructor].
    intros batch item Hitem Hbatch. by apply emits_stage_of.
  - intros batch Hbatch. apply emits_try.
    + apply (emits_bind _ _ _ (fun _ => True)).
      * apply emits_call; [|done]. by apply (verbatim_commit f v all items).
      * intros _ _. by apply emits_print.
    + intros e. by apply emits_print.
Qed.

Lemma verbatim_add (f : fixture) (v : json) (items : list json) (record : json) :
  unbatched f = true ->
  disk (fixture_path f) = Holds v ->
  Py.iter v = Ok items ->
  In record items ->
  verbatim disk (AddDoc (collection_of f) record).
Proof.
  intros Hf Hdisk Hitems Hin collection data [[= <- <-]|[]].
  apply (verbatim_element disk f v items); auto.
Qed.

Lemma verbatim_set (f : fixture) (v : json) :
  f = Configuracion \/ f = Premios ->
  disk (fixture_path f) = Holds v ->
  verbatim disk (SetDoc (collection_of f) "general" v).
Proof.
  intros Hf Hdisk collection data [[= <- <-]|[]].
  by apply (verbatim_whole disk f v).
Qed.

Lemma emits_migrate_fixture (f : fixture) :
  emits (verbatim disk) (migrate_fixture disk service enc f) (fun _ => True).
Proof.
  assert (forall l, emits (verbatim disk) (print l) (fun _ => True)) as Hprint
    by (intros l; by apply emits_print).
  destruct (batched f) eqn:Hbatched; [|destruct (unbatched f) eqn:Hunbatched].
  - rewrite (migrate_batched_eq _ _ _ _ Hbatched).
    eapply emits_bind; [apply emits_load_json|]. intros v Hv. cbn beta in Hv.
    destruct (Py.truthy v); [|by apply emits_ret].
    apply (emits_bind _ _ _ (fun _ => True)); [by apply emits_lift|].
    intros total _.
    apply (emits_bind _ _ _ (fun _ => True)); [|auto].
    apply emits_for_each. intros i _. by apply emits_batch_body; auto.
  - rewrite (migrate_unbatched_eq _ _ _ _ Hunbatched).
    eapply emits_bind; [apply emits_load_json|]. intros v Hv. cbn beta in Hv.
    destruct (Py.truthy v); [|by apply emits_ret].
    apply (emits_bind _ _ _ (fun items => Py.iter v = Ok items));
      [by apply emits_lift|].
    intros items Hitems.
    apply (emits_bind _ _ _ (fun _ => True)).
    + apply emits_for_each. intros record Hrecord. unfold add_one.
      apply emits_try; [|auto].
      apply emits_call; [|done]. by apply (verbatim_add f v items); auto.
    + intros _ _.
      apply (emits_bind _ _ _ (fun _ => True)); [by apply emits_lift|auto].
  - destruct f; try discriminate; cbn [migrate_fixture].
    + unfold migrate_configuracion.
      eapply emits_bind; [apply emits_load_json|]. intros v Hv. cbn beta in Hv.
      destruct (Py.truthy v); [|by apply emits_ret].
      apply emits_try; [|auto].
      apply (emits_bind _ _ _ (fun _ => True)); [|auto].
      apply emits_call; [|done].
      apply (verbatim_set Configuracion v); auto.
    + unfold migrate_horarios_zulia.
      eapply emits_bind; [apply emits_load_json|]. intros v Hv. cbn beta in Hv.
      destruct (Py.truthy v); [|by apply emits_ret].
      apply emits_try; [|auto].
      apply (emits_bind _ _ _ (fun _ => True)).
      * apply emits_call; [|done].
        intros collection data [[= <- <-]|[]].
        apply verbatim_horarios. auto.
      * intros _ _.
        apply (emits_bind _ _ _ (fun _ => True)); [by apply emits_lift|auto].
    + unfold migrate_premios.
      eapply emits_bind; [apply emits_load_json|]. intros v Hv. cbn beta in Hv.
      destruct (Py.truthy v); [|by apply emits_ret].
      apply emits_try; [|auto].
      apply (emits_bind _ _ _ (fun _ => True)); [|auto].
      apply emits_call; [|done].
      apply (verbatim_set Premios v); auto.
Qed.

Lemma emits_migrate_data :
  emits (verbatim disk) (migrate_data disk service enc) (fun _ => True).
Proof.
  unfold migrate_data.
  repeat (apply (emits_bind _ _ _ (fun _ => True));
          [ first [ by apply emits_print
                  | apply (emits_migrate_fixture Configuracion)
                  | apply (emits_migrate_fixture Numeros)
                  | apply (emits_migrate_fixture HorariosZulia)
                  | apply (emits_migrate_fixture Ganadores)
                  | apply (emits_migrate_fixture Premios)
                  | apply (emits_migrate_fixture Ventas)
                  | apply (emits_migrate_fixture ResultadosZulia)
                  | apply (emits_migrate_fixture Comprobantes) ]
          | intros _ _ ]).
  by apply emits_print.
Qed.

End Verbatim.

(** ** A fixture with nothing in it *)

Lemma migrate_nothing disk service enc (f : fixture) w :
  nothing_to_migrate (disk (fixture_path f)) ->
  migrate_fixture disk service enc f w
  = (Ok tt,
     fold_left (fun acc l => with_line l acc)
               (load_lines (fixture_path f) (disk (fixture_path f)))
               (with_load (fixture_path f) w)).
Proof.
  unfold nothing_to_migrate. intros Hempty.
  destruct f; cbn [migrate_fixture];
    unfold migrate_configuracion, migrate_numeros, migrate_horarios_zulia,
           migrate_ganadores, migrate_premios, migrate_ventas,
           migrate_resultados_zulia, migrate_comprobantes;
    unfold bind at 1; rewrite load_json_eq; cbn [fixture_path] in Hempty;
    by rewrite Hempty.
Qed.

Lemma stdout_with_lines (ls : list line) : forall w,
  stdout (fold_left (fun acc l => with_line l acc) ls w) = stdout w ++ ls.
Proof.
  induction ls as [|l ls IH]; intros w; cbn [fold_left].
  - by rewrite app_nil_r.
  - rewrite IH. cbn. by rewrite <- app_assoc.
Qed.

Lemma store_with_lines (ls : list line) : forall w,
  docs (fold_left (fun acc l => with_line l acc) ls w) = docs w /\
  assigned (fold_left (fun acc l => with_line l acc) ls w) = assigned w /\
  requests (fold_left (fun acc l => with_line l acc) ls w) = requests w /\
  loads (fold_left (fun acc l => with_line l acc) ls w) = loads w.
Proof.
  induction ls as [|l ls IH]; intros w; cbn [fold_left]; [done|].
  destruct (IH (with_line l w)) as (-> & -> & -> & ->). done.
Qed.

(** ** The writes of a list, batch by batch *)

Lemma writes_of_app enc f items1 items2 :
  writes_of enc f (items1 ++ items2)
  = writes_of enc f items1 ++ writes_of enc f items2.
Proof. unfold writes_of. apply flat_map_app. Qed.




Lemma stageable_numbered enc n :
  enc (numbered n) = None -> stageable enc Numeros (numbered n).
Proof.
  intros Henc. eexists. cbn [staged]. unfold numero_write.
  cbn [numbered Py.getitem Py.assoc]. cbn. by rewrite Henc.
Qed.

Lemma stageable_map_numbered enc (ns : list nat) :
  (forall n, enc (numbered n) = None) ->
  Forall (stageable enc Numeros) (map numbered ns).
Proof.
  intros Henc. apply List.Forall_forall. intros item Hin.
  apply in_map_iff in Hin as (n & <- & _). by apply stageable_numbered.
Qed.

End MigratorFacts.

Import Migrator Spec Trace MigratorFacts.

(** C1, as the code has it: a list of N records handled by a batching loop
    (numbers, sales), every element of which the loop can stage, is submitted
    in exactly ceil(N/500) batches of at most 500 records each, and the
    batches, in order, hold every record of the list exactly once.  (An
    element that cannot be staged raises while its batch is built.) *)
Theorem batched_fanout_partitions_the_list
  (disk : string -> fixture_file) (service : nat -> option exn)
  (encode_error : json -> option exn)
  (f : fixture) (data : list json) (w : world) :
  batched f = true ->
  disk (fixture_path f) = Holds (JArr data) ->
  Forall (stageable encode_error f) data ->
  exists batches : list (list write),
    requests (snd (migrate_fixture disk service encode_error f w))
    = requests w ++ map Commit batches /\
    length batches = ceil_div (length data) batch_size /\
    Forall (fun batch => length batch <= batch_size) batches /\
    concat (map (map w_data) batches) = data.
Proof.
  intros Hf Hdisk Hok. exists (batches_of encode_error f data).
  split; [by apply requests_migrate_batched|].
  split; [unfold batches_of; by rewrite length_map, segments_length|].
  split; [apply batches_of_bounded|].
  rewrite (batches_of_data _ _ Hf _ Hok). apply segments_concat.
Qed.

(** 1001 records: three batches, of 500, 500 and 1 records. *)
Lemma batched_fanout_partitions_the_list_witness :
  exists batches : list (list write),
    requests (snd (migrate_fixture disk_many_numeros first_call_fails encodes_all
                     Numeros empty_world))
    = requests empty_world ++ map Commit batches /\
    length batches = ceil_div (length many_numeros) batch_size /\
    Forall (fun batch => length batch <= batch_size) batches /\
    concat (map (map w_data) batches) = many_numeros.
Proof.
  apply (batched_fanout_partitions_the_list
           disk_many_numeros first_call_fails encodes_all Numeros many_numeros
           empty_world).
  - reflexivity.
  - reflexivity.
  - apply stageable_map_numbered. reflexivity.
Defined.

(** C1, as stated, fails: a numbers list of one record that has no "numero"
    should give ceil(1/500) = 1 batch submission, and the migrator issues
    none. *)
Lemma unstageable_record_issues_no_batch :
  disk_numero_without_key (fixture_path Numeros)
  = Holds (JArr [JObj [("id", JStr "01")]]) /\
  ~ issues_all_batches
      (migrate_fixture disk_numero_without_key always_ok encodes_all Numeros
         empty_world)
      empty_world [JObj [("id", JStr "01")]].
Proof.
  split; [reflexivity|].
  intros (batches & Hrequests & Hlength).
  destruct batches as [|batch batches]; [discriminate Hlength|].
  discriminate Hrequests.
Qed.




(** C8: in a per-record loop (winners, results, receipts) every record of the
    list is attempted, in order, whatever the earlier writes did; a write
    that fails is caught and a line with that record and the exception is
    printed. *)
Theorem failed_record_is_reported_and_loop_continues
  (disk : string -> fixture_file) (service : nat -> option exn)
  (encode_error : json -> option exn)
  (f : fixture) (records : list json) (w : world) :
  unbatched f = true ->
  disk (fixture_path f) = Holds (JArr records) ->
  fst (migrate_fixture disk service encode_error f w) = Ok tt /\
  requests (snd (migrate_fixture disk service encode_error f w))
  = requests w ++ map (AddDoc (collection_of f)) records /\
  forall (k : nat) (record : json) (e : exn),
    records !! k = Some record ->
    service (length (requests w) + k) = Some e ->
    In (record_error_line f record e)
       (stdout (snd (migrate_fixture disk service encode_error f w))).
Proof.
  intros Hf Hdisk. rewrite (migrate_unbatched_run _ _ _ _ _ _ Hf Hdisk).
  destruct records as [|record records']; cbn [fst snd].
  - split; [done|]. split; [by rewrite app_nil_r|]. intros k ? ? Hk. done.
  - set (records := record :: records') in *.
    split; [done|]. cbn [requests stdout with_line].
    split; [by rewrite requests_add_all|].
    intros k r e Hk Hfail. apply in_or_app. left.
    by apply (add_failure_reported _ _ _ (with_load (fixture_path f) w) k).
Qed.

Lemma failed_record_witness :
  fst (migrate_fixture sample_disk first_call_fails encodes_all Ganadores empty_world)
  = Ok tt /\
  requests (snd (migrate_fixture sample_disk first_call_fails encodes_all
                   Ganadores empty_world))
  = requests empty_world ++ map (AddDoc (collection_of Ganadores)) sample_ganadores /\
  forall (k : nat) (record : json) (e : exn),
    sample_ganadores !! k = Some record ->
    first_call_fails (length (requests empty_world) + k) = Some e ->
    In (record_error_line Ganadores record e)
       (stdout (snd (migrate_fixture sample_disk first_call_fails encodes_all
                       Ganadores empty_world))).
Proof.
  apply (failed_record_is_reported_and_loop_continues
           sample_disk first_call_fails encodes_all Ganadores sample_ganadores
           empty_world).
  - reflexivity.
  - reflexivity.
Defined.




(** C10: every content the migrator submits is taken from a fixture file
    unchanged: the whole parsed value (configuration, prizes), one element of
    the parsed value (numbers, winners, sales, results, receipts), or, for
    the schedule, the parsed value under the single field "horarios".
    Nothing is added to a record, so no time stamp ever is. *)
Theorem submitted_content_is_the_source_unchanged
  (disk : string -> fixture_file) (service : nat -> option exn)
  (encode_error : json -> option exn) (w : world) :
  exists new : list request,
    requests (snd (migrate_data disk service encode_error w)) = requests w ++ new /\
    Forall (verbatim disk) new.
Proof. apply (emits_migrate_data disk service encode_error w). Qed.

(** C6, as the code has it: a fixture whose file is absent, does not load, or
    holds an empty value is skipped; the step returns, nothing is sent or
    stored, and the console gets the warning for an absent file, the error
    for a file that does not load, and no line at all for an empty value. *)
Theorem nothing_to_migrate_is_skipped
  (disk : string -> fixture_file) (service : nat -> option exn)
  (encode_error : json -> option exn) (f : fixture) (w : world) :
  nothing_to_migrate (disk (fixture_path f)) ->
  fst (migrate_fixture disk service encode_error f w) = Ok tt /\
  requests (snd (migrate_fixture disk service encode_error f w)) = requests w /\
  docs (snd (migrate_fixture disk service encode_error f w)) = docs w /\
  assigned (snd (migrate_fixture disk service encode_error f w)) = assigned w /\
  stdout (snd (migrate_fixture disk service encode_error f w))
  = stdout w ++ load_lines (fixture_path f) (disk (fixture_path f)).
Proof.
  intros Hempty. rewrite (migrate_nothing _ _ _ _ _ Hempty). cbn [fst snd].
  rewrite stdout_with_lines.
  destruct (store_with_lines (load_lines (fixture_path f) (disk (fixture_path f)))
              (with_load (fixture_path f) w)) as (-> & -> & -> & _).
  done.
Qed.

Lemma nothing_to_migrate_witness :
  fst (migrate_fixture sample_disk always_ok encodes_all Premios empty_world) = Ok tt /\
  requests (snd (migrate_fixture sample_disk always_ok encodes_all Premios empty_world))
  = requests empty_world /\
  docs (snd (migrate_fixture sample_disk always_ok encodes_all Premios empty_world))
  = docs empty_world /\
  assigned (snd (migrate_fixture sample_disk always_ok encodes_all Premios empty_world))
  = assigned empty_world /\
  stdout (snd (migrate_fixture sample_disk always_ok encodes_all Premios empty_world))
  = stdout empty_world
    ++ load_lines (fixture_path Premios) (sample_disk (fixture_path Premios)).
Proof.
  apply (nothing_to_migrate_is_skipped
           sample_disk always_ok encodes_all Premios empty_world).
  reflexivity.
Defined.

(** C6, as stated, fails: a numbers fixture that holds the empty list is
    skipped without any line on the console. *)
Lemma empty_fixture_prints_no_warning :
  nothing_to_migrate (disk_empty_numeros (fixture_path Numeros)) /\
  ~ skipped_with_warning
      (migrate_fixture disk_empty_numeros always_ok encodes_all Numeros empty_world)
      empty_world.
Proof.
  split; [reflexivity|].
  intros (_ & _ & warning & Hout). vm_compute in Hout. discriminate Hout.
Qed.



(** C3, at a failing input: a numbers fixture with one record that has no
    "numero".  Building the batch raises KeyError outside every try block;
    the exception leaves migrate_data, and the six fixtures after the numbers
    are never loaded. *)
Theorem numero_without_key_halts_the_migration
  (service : nat -> option exn) (encode_error : json -> option exn) :
  fst (migrate_data disk_numero_without_key service encode_error empty_world)
  = Raise (Py.KeyError "numero") /\
  loads (snd (migrate_data disk_numero_without_key service encode_error empty_world))
  = [CONFIGURACION_FILE; NUMEROS_FILE] /\
  requests (snd (migrate_data disk_numero_without_key service encode_error empty_world))
  = [].
Proof. repeat split. Qed.

Import EncodeKey Base64 Base64Facts.

(** C2: when the key file is read, the text the encoder prints between the
    start and the end marker, base64-decoded, is the file's bytes. *)
Theorem encoded_text_decodes_to_the_file
  (disk : string -> key_file) (bs : list byte) :
  disk EncodeKey.SERVICE_ACCOUNT_FILE = Bytes bs ->
  exists (text : string) (rest : list line),
    encode_key disk = START_MARKER :: [Text text] :: END_MARKER :: rest /\
    between_markers (encode_key disk) = Some text /\
    b64decode (list_byte_of_string text) = Some bs.
Proof.
  intros Hdisk. unfold encode_key. rewrite Hdisk.
  eexists _, _. split; [reflexivity|]. split; [reflexivity|].
  unfold encoded_string.
  rewrite list_byte_of_string_of_list_byte. apply b64decode_b64encode.
Qed.

Lemma encoded_text_witness :
  exists (text : string) (rest : list line),
    encode_key sample_key_disk = START_MARKER :: [Text text] :: END_MARKER :: rest /\
    between_markers (encode_key sample_key_disk) = Some text /\
    b64decode (list_byte_of_string text) = Some sample_key.
Proof.
  apply (encoded_text_decodes_to_the_file sample_key_disk sample_key).
  reflexivity.
Defined.

(** C9: when the key file is absent the encoder prints one line, the error,
    and nothing else: no marker and no encoded text. *)
Theorem missing_key_file_prints_one_error_line (disk : string -> key_file) :
  disk EncodeKey.SERVICE_ACCOUNT_FILE = NoFile ->
  encode_key disk
  = [ [Text "Error: Archivo '"; Text EncodeKey.SERVICE_ACCOUNT_FILE;
       Text "' no encontrado en el directorio actual."] ] /\
  ~ In START_MARKER (encode_key disk) /\
  ~ In END_MARKER (encode_key disk) /\
  between_markers (encode_key disk) = None.
Proof.
  intros Hdisk. unfold encode_key. rewrite Hdisk.
  split; [reflexivity|].
  split; [|split; [|reflexivity]]; intros [Heq|[]]; discriminate Heq.
Qed.

Lemma missing_key_file_witness :
  encode_key empty_key_disk
  = [ [Text "Error: Archivo '"; Text EncodeKey.SERVICE_ACCOUNT_FILE;
       Text "' no encontrado en el directorio actual."] ] /\
  ~ In START_MARKER (encode_key empty_key_disk) /\
  ~ In END_MARKER (encode_key empty_key_disk) /\
  between_markers (encode_key empty_key_disk) = None.
Proof.
  apply (missing_key_file_prints_one_error_line empty_key_disk).
  reflexivity.
Defined.

(** * Further facts about the migrator *)
Module StoreFacts.
Import Migrator Spec Trace Effects MigratorFacts.

(** ** The store is the replay of the requests *)

Lemma same_store_refl w : same_store w w.
Proof. by split. Qed.

Lemma same_store_trans w1 w2 w3 :
  same_store w1 w2 -> same_store w2 w3 -> same_store w1 w3.
Proof. intros [H1 H2] [H3 H4]. split; congruence. Qed.

Lemma same_store_apply_write wr w w' :
  same_store w w' -> same_store (apply_write wr w) (apply_write wr w').
Proof.
  intros [Hdocs Hassigned]. unfold apply_write.
  destruct (ref_id (w_ref wr)); split; cbn; congruence.
Qed.

Lemma same_store_apply_batch batch : forall w w',
  same_store w w' -> same_store (apply_batch batch w) (apply_batch batch w').
Proof.
  induction batch as [|wr batch IH]; intros w w' Hsame; [done|].
  rewrite !apply_batch_cons. by apply IH, same_store_apply_write.
Qed.

Lemma same_store_apply_request r w w' :
  same_store w w' -> same_store (apply_request r w) (apply_request r w').
Proof.
  destruct r; cbn [apply_request];
    auto using same_store_apply_write, same_store_apply_batch.
Qed.

Lemma same_store_replay service reqs : forall base w w',
  same_store w w' ->
  same_store (replay service base reqs w) (replay service base reqs w').
Proof.
  induction reqs as [|r reqs IH]; intros base w w' Hsame; [done|].
  cbn [replay]. apply IH. destruct (service base); [done|].
  by apply same_store_apply_request.
Qed.

Lemma replay_app service reqs1 reqs2 : forall base w,
  replay service base (reqs1 ++ reqs2) w
  = replay service (base + length reqs1) reqs2 (replay service base reqs1 w).
Proof.
  induction reqs1 as [|r reqs1 IH]; intros base w; cbn [app replay length].
  - by rewrite Nat.add_0_r.
  - rewrite IH. f_equal. lia.
Qed.

Section Logged.

Variable service : nat -> option exn.

Lemma logged_same {A} (m : M A) :
  (forall w, exists new,
      requests (snd (m w)) = requests w ++ new /\
      same_store (snd (m w)) (replay service (length (requests w)) new w)) ->
  logged service m.
Proof.
  intros Hm w. destruct (Hm w) as (new & Hreq & Hdocs & Hassigned). by exists new.
Qed.

Lemma logged_quiet {A} (m : M A) :
  (forall w, requests (snd (m w)) = requests w /\ same_store (snd (m w)) w) ->
  logged service m.
Proof.
  intros Hm. apply logged_same. intros w. destruct (Hm w) as [Hreq Hsame].
  exists []. by rewrite app_nil_r.
Qed.

Lemma logged_ret {A} (a : A) : logged service (ret a).
Proof. apply logged_quiet. intros w. split; [done|apply same_store_refl]. Qed.

Lemma logged_lift {A} (r : result A) : logged service (lift r).
Proof. apply logged_quiet. intros w. split; [done|apply same_store_refl]. Qed.

Lemma logged_print (l : line) : logged service (print l).
Proof. apply logged_quiet. intros w. by split. Qed.

Lemma logged_load_json disk filepath : logged service (load_json disk filepath).
Proof.
  apply logged_quiet. intros w. unfold load_json.
  by destruct (disk filepath).
Qed.

Lemma logged_call (r : request) : logged service (call service r).
Proof.
  apply logged_same. intros w. exists [r]. unfold call. cbn [replay].
  destruct (service (length (requests w))); cbn [snd]; split; try done.
  - by rewrite requests_apply_request.
  - by apply same_store_apply_request.
Qed.

Lemma logged_bind {A B} (m : M A) (k : A -> M B) :
  logged service m -> (forall a, logged service (k a)) -> logged service (bind m k).
Proof.
  intros Hm Hk. apply logged_same. intros w. unfold bind.
  destruct (Hm w) as (new1 & Hreq1 & Hdocs1 & Hassigned1).
  destruct (m w) as [[a|e] w1]; cbn [fst snd] in *.
  - destruct (Hk a w1) as (new2 & Hreq2 & Hdocs2 & Hassigned2).
    exists (new1 ++ new2). rewrite Hreq2, Hreq1, <- app_assoc. split; [done|].
    rewrite replay_app.
    eapply same_store_trans; [by split|].
    rewrite Hreq1, length_app. by apply same_store_replay.
  - exists new1. by repeat split.
Qed.

Lemma logged_try {A} (body : M A) (handler : exn -> M A) :
  logged service body -> (forall e, logged service (handler e)) ->
  logged service (try_except body handler).
Proof.
  intros Hbody Hhandler. apply logged_same. intros w. unfold try_except.
  destruct (Hbody w) as (new1 & Hreq1 & Hdocs1 & Hassigned1).
  destruct (body w) as [[a|e] w1]; cbn [fst snd] in *.
  - exists new1. by repeat split.
  - destruct (Hhandler e w1) as (new2 & Hreq2 & Hdocs2 & Hassigned2).
    exists (new1 ++ new2). rewrite Hreq2, Hreq1, <- app_assoc. split; [done|].
    rewrite replay_app.
    eapply same_store_trans; [by split|].
    rewrite Hreq1, length_app. by apply same_store_replay.
Qed.

Lemma logged_for_each {A} (xs : list A) (body : A -> M unit) :
  (forall x, logged service (body x)) -> logged service (for_each xs body).
Proof.
  intros Hbody. induction xs as [|x xs IH]; cbn [for_each].
  - apply logged_ret.
  - by apply logged_bind.
Qed.

Lemma logged_for_fold {A S} (xs : list A) (body : S -> A -> M S) :
  (forall s x, logged service (body s x)) ->
  forall s, logged service (for_fold xs body s).
Proof.
  intros Hbody. induction xs as [|x xs IH]; intros s; cbn [for_fold].
  - apply logged_ret.
  - by apply logged_bind.
Qed.

Ltac logged_step :=
  first
    [ apply logged_ret
    | apply logged_lift
    | apply logged_print
    | apply logged_load_json
    | apply logged_call
    | apply logged_bind; [|intros ?]
    | apply logged_try; [|intros ?]
    | apply logged_for_each; intros ?
    | apply logged_for_fold; intros ? ?
    | match goal with
      | |- logged _ (if ?c then _ else _) => destruct c
      | |- logged _ (match ?c with Some _ => _ | None => _ end) => destruct c
      end ].

Lemma logged_migrate_fixture disk enc (f : fixture) :
  logged service (migrate_fixture disk service enc f).
Proof.
  destruct f; cbn [migrate_fixture];
    unfold migrate_configuracion, migrate_numeros, migrate_horarios_zulia,
           migrate_ganadores, migrate_premios, migrate_ventas,
           migrate_resultados_zulia, migrate_comprobantes,
           stage_numero, stage_venta, batch_set,
           doc_set, batch_commit, collection_add;
    repeat logged_step.
Qed.

Lemma logged_migrate_data disk enc : logged service (migrate_data disk service enc).
Proof.
  unfold migrate_data.
  repeat (apply logged_bind;
          [ first [ apply logged_print
                  | apply (logged_migrate_fixture disk enc Configuracion)
                  | apply (logged_migrate_fixture disk enc Numeros)
                  | apply (logged_migrate_fixture disk enc HorariosZulia)
                  | apply (logged_migrate_fixture disk enc Ganadores)
                  | apply (logged_migrate_fixture disk enc Premios)
                  | apply (logged_migrate_fixture disk enc Ventas)
                  | apply (logged_migrate_fixture disk enc ResultadosZulia)
                  | apply (logged_migrate_fixture disk enc Comprobantes) ]
          | intros _ ]).
  apply logged_print.
Qed.

End Logged.

(** ** Where a stored document comes from *)

Lemma docs_apply_write_source wr w key v :
  docs (apply_write wr w) !! key = Some v ->
  docs w !! key = Some v \/
  (fst key = ref_collection (w_ref wr) /\ v = w_data wr).
Proof.
  unfold apply_write. destruct (ref_id (w_ref wr)) as [id|]; cbn [docs]; [|auto].
  destruct (decide ((ref_collection (w_ref wr), id) = key)) as [<-|Hne].
  - rewrite lookup_insert_eq. intros [= <-]. auto.
  - rewrite lookup_insert_ne by done. auto.
Qed.

Lemma assigned_apply_write_source wr w c v :
  In (c, v) (assigned (apply_write wr w)) ->
  In (c, v) (assigned w) \/ (c = ref_collection (w_ref wr) /\ v = w_data wr).
Proof.
  unfold apply_write. destruct (ref_id (w_ref wr)) as [id|]; cbn [assigned]; [auto|].
  intros Hin. apply in_app_or in Hin as [Hin|[[= <- <-]|[]]]; auto.
Qed.

Lemma docs_apply_batch_source batch : forall w key v,
  docs (apply_batch batch w) !! key = Some v ->
  docs w !! key = Some v \/ In (fst key, v) (payloads (Commit batch)).
Proof.
  induction batch as [|wr batch IH]; intros w key v Hv; [auto|].
  rewrite apply_batch_cons in Hv. cbn [payloads map].
  destruct (IH _ _ _ Hv) as [Hprior|Hin]; [|right; by right].
  destruct (docs_apply_write_source _ _ _ _ Hprior) as [?|[-> ->]];
    [by left | right; by left].
Qed.

Lemma assigned_apply_batch_source batch : forall w c v,
  In (c, v) (assigned (apply_batch batch w)) ->
  In (c, v) (assigned w) \/ In (c, v) (payloads (Commit batch)).
Proof.
  induction batch as [|wr batch IH]; intros w c v Hv; [auto|].
  rewrite apply_batch_cons in Hv. cbn [payloads map].
  destruct (IH _ _ _ Hv) as [Hprior|Hin]; [|right; by right].
  destruct (assigned_apply_write_source _ _ _ _ Hprior) as [?|[-> ->]];
    [by left | right; by left].
Qed.

Lemma docs_apply_request_source r w key v :
  docs (apply_request r w) !! key = Some v ->
  docs w !! key = Some v \/ In (fst key, v) (payloads r).
Proof.
  destruct r; cbn [apply_request]; intros Hv.
  - destruct (docs_apply_write_source _ _ _ _ Hv) as [?|[-> ->]];
      [by left | right; by left].
  - by apply docs_apply_batch_source.
  - destruct (docs_apply_write_source _ _ _ _ Hv) as [?|[-> ->]];
      [by left | right; by left].
Qed.

Lemma assigned_apply_request_source r w c v :
  In (c, v) (assigned (apply_request r w)) ->
  In (c, v) (assigned w) \/ In (c, v) (payloads r).
Proof.
  destruct r; cbn [apply_request]; intros Hv.
  - destruct (assigned_apply_write_source _ _ _ _ Hv) as [?|[-> ->]];
      [by left | right; by left].
  - by apply assigned_apply_batch_source.
  - destruct (assigned_apply_write_source _ _ _ _ Hv) as [?|[-> ->]];
      [by left | right; by left].
Qed.

Lemma docs_replay_source service (P : string -> json -> Prop) reqs :
  Forall (fun r => forall c v, In (c, v) (payloads r) -> P c v) reqs ->
  forall base w key v,
    docs (replay service base reqs w) !! key = Some v ->
    docs w !! key = Some v \/ P (fst key) v.
Proof.
  induction 1 as [|r reqs Hr _ IH]; intros base w key v Hv; [auto|].
  cbn [replay] in Hv. destruct (IH _ _ _ _ Hv) as [Hprior|?]; [|auto].
  destruct (service base); [auto|].
  destruct (docs_apply_request_source _ _ _ _ Hprior); auto.
Qed.

Lemma assigned_replay_source service (P : string -> json -> Prop) reqs :
  Forall (fun r => forall c v, In (c, v) (payloads r) -> P c v) reqs ->
  forall base w c v,
    In (c, v) (assigned (replay service base reqs w)) ->
    In (c, v) (assigned w) \/ P c v.
Proof.
  induction 1 as [|r reqs Hr _ IH]; intros base w c v Hv; [auto|].
  cbn [replay] in Hv. destruct (IH _ _ _ _ Hv) as [Hprior|?]; [|auto].
  destruct (service base); [auto|].
  destruct (assigned_apply_request_source _ _ _ _ Hprior); auto.
Qed.

(** ** What the store keeps *)








(** ** The per-record loops on anything a [for] loop can visit *)

Lemma length_chars (s : string) : length (Py.chars s) = String.length s.
Proof. induction s as [|c s IH]; cbn; [done|by rewrite IH]. Qed.

Lemma iter_len (v : json) (items : list json) :
  Py.iter v = Ok items -> Py.len v = Ok (length items).
Proof.
  destruct v; try discriminate; cbn [Py.iter Py.len]; intros [= <-].
  - by rewrite length_chars.
  - done.
  - by rewrite length_map.
Qed.

Lemma migrate_unbatched_iter disk service enc (f : fixture) v items w :
  unbatched f = true ->
  disk (fixture_path f) = Holds v ->
  Py.truthy v = true ->
  Py.iter v = Ok items ->
  migrate_fixture disk service enc f w
  = (Ok tt,
     with_line (summary_line f (length items))
       (fold_left (fun acc x => after_add service f x acc) items
                  (with_load (fixture_path f) w))).
Proof.
  intros Hf Hdisk Htruthy Hitems. rewrite (migrate_unbatched_eq _ _ _ _ Hf).
  unfold bind at 1. rewrite load_json_eq, Hdisk. cbn [loaded load_lines fold_left].
  rewrite Htruthy. unfold bind, lift. rewrite Hitems, (iter_len v items Hitems).
  rewrite (for_each_total items _ (after_add service f))
    by (intros; apply add_one_total).
  reflexivity.
Qed.

Section AddEffects.

Variable service : nat -> option exn.
Variable f : fixture.

Lemma store_after_add record w :
  docs (after_add service f record w) = docs w /\
  loads (after_add service f record w) = loads w /\
  assigned (after_add service f record w)
  = assigned w
    ++ match service (length (requests w)) with
       | None => [(collection_of f, record)]
       | Some _ => []
       end.
Proof.
  unfold after_add. destruct (service _); cbn; [by rewrite app_nil_r|done].
Qed.

Lemma store_add_all records : forall w,
  docs (fold_left (fun acc x => after_add service f x acc) records w) = docs w /\
  loads (fold_left (fun acc x => after_add service f x acc) records w) = loads w /\
  assigned (fold_left (fun acc x => after_add service f x acc) records w)
  = assigned w
    ++ map (pair (collection_of f)) (accepted service (length (requests w)) records).
Proof.
  induction records as [|record records IH]; intros w; cbn [fold_left accepted].
  - by rewrite app_nil_r.
  - destruct (IH (after_add service f record w)) as (-> & -> & ->).
    destruct (store_after_add record w) as (-> & -> & ->).
    rewrite requests_after_add, length_app, Nat.add_1_r.
    destruct (service (length (requests w))); cbn [map app].
    + by rewrite app_nil_r.
    + by rewrite <- app_assoc.
Qed.

End AddEffects.

Lemma accepted_all service base records :
  (forall n, service n = None) -> accepted service base records = records.
Proof.
  intros Hok. revert base.
  induction records as [|r records IH]; intros base; cbn; [done|].
  by rewrite Hok, IH.
Qed.

Lemma accepted_none service base records :
  (forall n, service n <> None) -> accepted service base records = [].
Proof.
  intros Hfail. revert base.
  induction records as [|r records IH]; intros base; cbn; [done|].
  destruct (service base) eqn:Hs; [apply IH|by apply Hfail in Hs].
Qed.

(** ** The batching loops and the store *)

Lemma apply_batch_app batch1 batch2 w :
  apply_batch (batch1 ++ batch2) w = apply_batch batch2 (apply_batch batch1 w).
Proof. unfold apply_batch. apply fold_left_app. Qed.

Lemma loads_apply_write wr w : loads (apply_write wr w) = loads w.
Proof. unfold apply_write. by destruct (ref_id (w_ref wr)). Qed.

Lemma loads_apply_batch batch : forall w, loads (apply_batch batch w) = loads w.
Proof.
  induction batch as [|wr batch IH]; intros w; [done|].
  by rewrite apply_batch_cons, IH, loads_apply_write.
Qed.

Lemma loads_apply_request r w : loads (apply_request r w) = loads w.
Proof.
  destruct r; cbn [apply_request];
    auto using loads_apply_write, loads_apply_batch.
Qed.


Lemma accepted_segments_none service base segs :
  (forall n, service n <> None) -> accepted_segments service base segs = [].
Proof.
  intros Hfail. revert base.
  induction segs as [|s segs IH]; intros base; cbn; [done|].
  destruct (service base) eqn:Hs; [apply IH|by apply Hfail in Hs].
Qed.

Lemma accepted_segments_incl service segs : forall base segment,
  In segment (accepted_segments service base segs) -> In segment segs.
Proof.
  induction segs as [|s segs IH]; intros base segment; cbn; [done|].
  destruct (service base); [right; by eapply IH|].
  intros [<-|Hin]; [by left|right; by eapply IH].
Qed.

Section CommitEffects.

Variable service : nat -> option exn.
Variable enc : json -> option exn.
Variable f : fixture.

Lemma loads_after_commit total i batch w :
  loads (after_commit service f total i batch w) = loads w.
Proof.
  unfold after_commit. destruct (service _); cbn; [done|].
  by rewrite loads_apply_batch.
Qed.

Lemma loads_after_batches data total starts : forall w,
  loads (after_batches service enc f data total starts w) = loads w.
Proof.
  unfold after_batches.
  induction starts as [|i starts IH]; intros w; cbn [fold_left]; [done|].
  by rewrite IH, loads_after_commit.
Qed.

Lemma same_store_after_commit total i batch w :
  same_store (after_commit service f total i batch w)
             (match service (length (requests w)) with
              | None => apply_batch batch w
              | Some _ => w
              end).
Proof.
  unfold after_commit. destruct (service _); [by split|].
  eapply same_store_trans; [split; reflexivity|].
  by apply same_store_apply_batch.
Qed.

Lemma same_store_after_batches data total starts : forall w,
  same_store
    (after_batches service enc f data total starts w)
    (apply_batch
       (writes_of enc f
          (concat (accepted_segments service (length (requests w))
                     (map (fun i => firstn batch_size (skipn i data)) starts))))
       w).
Proof.
  unfold after_batches.
  induction starts as [|i starts IH]; intros w;
    cbn [fold_left map accepted_segments]; [by split|].
  eapply same_store_trans; [apply IH|].
  rewrite requests_after_commit, length_app, Nat.add_1_r.
  pose proof (same_store_after_commit total i
                (writes_of enc f (firstn batch_size (skipn i data))) w) as Hstep.
  destruct (service (length (requests w))).
  - by apply same_store_apply_batch.
  - cbn [concat]. rewrite writes_of_app, apply_batch_app.
    by apply same_store_apply_batch.
Qed.

Lemma same_store_migrate_batched disk data w :
  batched f = true ->
  disk (fixture_path f) = Holds (JArr data) ->
  Forall (stageable enc f) data ->
  same_store
    (snd (migrate_fixture disk service enc f w))
    (apply_batch
       (writes_of enc f
          (concat (accepted_segments service (length (requests w)) (segments data))))
       w).
Proof.
  intros Hf Hdisk Hok.
  rewrite (migrate_batched_run service enc f Hf disk data w Hdisk Hok). cbn [snd].
  destruct data as [|item data']; [by split|].
  eapply same_store_trans; [split; reflexivity|].
  eapply same_store_trans; [apply same_store_after_batches|].
  apply same_store_apply_batch. by split.
Qed.

End CommitEffects.

Lemma store_apply_ventas enc items : forall w,
  Forall (stageable enc Ventas) items ->
  docs (apply_batch (writes_of enc Ventas items) w) = docs w /\
  assigned (apply_batch (writes_of enc Ventas items) w)
  = assigned w ++ map (pair "ventas") items.
Proof.
  induction items as [|item items IH]; intros w Hok.
  - split; [done|]. by rewrite app_nil_r.
  - inversion Hok as [|? ? [wr Hwr] Hrest]; subst.
    unfold writes_of. cbn [flat_map]. fold (writes_of enc Ventas items).
    rewrite Hwr. cbn [app]. rewrite apply_batch_cons.
    destruct (IH (apply_write wr w) Hrest) as [-> ->].
    cbn [staged] in Hwr. unfold venta_write in Hwr.
    destruct (enc item); [done|]. injection Hwr as <-.
    cbn. split; [done|]. by rewrite <- app_assoc.
Qed.

Lemma numero_of_target enc item wr numero :
  numero_write enc item = Ok wr ->
  target wr = Some ("numeros", numero) <-> numero_of item = Some numero.
Proof.
  intros Hwr. rewrite (proj2 (numero_write_target enc numero item wr Hwr)).
  unfold numero_of. destruct (Py.getitem item "numero") as [[]|]; split; congruence.
Qed.

Lemma docs_apply_numeros enc numero items : forall w,
  Forall (stageable enc Numeros) items ->
  docs (apply_batch (writes_of enc Numeros items) w) !! ("numeros", numero)
  = match last_numero numero items with
    | Some item => Some item
    | None => docs w !! ("numeros", numero)
    end.
Proof.
  induction items as [|item items IH]; intros w Hok; [done|].
  inversion Hok as [|? ? [wr Hwr] Hrest]; subst.
  unfold writes_of. cbn [flat_map]. fold (writes_of enc Numeros items).
  rewrite Hwr. cbn [app]. rewrite apply_batch_cons, IH by done.
  cbn [last_numero]. destruct (last_numero numero items); [done|].
  cbn [staged] in Hwr.
  destruct (numero_write_target enc numero item wr Hwr) as [Hdata _].
  destruct (numero_of item) as [n|] eqn:Hn.
  - destruct (String.eqb_spec n numero) as [->|Hne].
    + rewrite (docs_apply_write_same wr w ("numeros", numero)), Hdata; [done|].
      by apply (numero_of_target enc item wr numero).
    + apply docs_apply_write_other. intros Htarget.
      apply (numero_of_target enc item wr numero Hwr) in Htarget. congruence.
  - apply docs_apply_write_other. intros Htarget.
    apply (numero_of_target enc item wr numero Hwr) in Htarget. congruence.
Qed.


Lemma In_accepted_segments service base data x :
  In x (concat (accepted_segments service base (segments data))) -> In x data.
Proof.
  intros Hin. apply in_concat in Hin as (segment & Hsegment & Hx).
  apply accepted_segments_incl in Hsegment.
  unfold segments in Hsegment. apply in_map_iff in Hsegment as (i & <- & _).
  by apply (In_segment batch_size i).
Qed.

(** ** Steps that return *)

Lemma visits_print (l : line) : visits [] (print l).
Proof. intros w. split; [done|]. cbn. by rewrite app_nil_r. Qed.

Lemma visits_bind (paths1 paths2 : list string) (m k : M unit) :
  visits paths1 m -> visits paths2 k ->
  visits (paths1 ++ paths2) (bind m (fun _ => k)).
Proof.
  intros Hm Hk w. unfold bind. destruct (Hm w) as [Hfst Hloads].
  destruct (m w) as [[[]|e] w1]; cbn [fst snd] in *; [|done].
  destruct (Hk w1) as [Hfst2 Hloads2].
  split; [done|]. by rewrite Hloads2, Hloads, <- app_assoc.
Qed.

Lemma truthy_loaded (file : fixture_file) :
  Py.truthy (loaded file) = true -> file = Holds (loaded file).
Proof. by destruct file. Qed.

Lemma nothing_visits disk service enc (f : fixture) w :
  nothing_to_migrate (disk (fixture_path f)) ->
  fst (migrate_fixture disk service enc f w) = Ok tt /\
  loads (snd (migrate_fixture disk service enc f w)) = loads w ++ [fixture_path f].
Proof.
  intros Hnothing. rewrite (migrate_nothing _ _ _ _ _ Hnothing). cbn [fst snd].
  split; [done|].
  by destruct (store_with_lines
                 (load_lines (fixture_path f) (disk (fixture_path f)))
                 (with_load (fixture_path f) w)) as (_ & _ & _ & ->).
Qed.

Lemma single_document_visits disk service enc (f : fixture) :
  batched f = false -> unbatched f = false ->
  visits [fixture_path f] (migrate_fixture disk service enc f).
Proof.
  intros Hb Hu w.
  destruct (Py.truthy (loaded (disk (fixture_path f)))) eqn:Htruthy;
    [|by apply nothing_visits].
  pose proof (truthy_loaded _ Htruthy) as Hdisk.
  set (v := loaded (disk (fixture_path f))) in *. clearbody v.
  destruct f; try discriminate; cbn [migrate_fixture fixture_path] in *;
    unfold migrate_configuracion, migrate_horarios_zulia, migrate_premios;
    unfold bind; rewrite load_json_eq, Hdisk;
    cbn [loaded load_lines fold_left]; rewrite Htruthy;
    unfold try_except, doc_set, call, print, lift; cbn [requests with_load];
    destruct (service (length (requests w))); cbn; try done;
    destruct (Py.len v); by cbn.
Qed.

Lemma step_visits disk service enc (f : fixture) :
  conforming enc f (disk (fixture_path f)) ->
  visits [fixture_path f] (migrate_fixture disk service enc f).
Proof.
  intros [Hnothing|Hconf] w.
  - by apply nothing_visits.
  - destruct (batched f) eqn:Hb; [|destruct (unbatched f) eqn:Hu].
    + assert (exists data, disk (fixture_path f) = Holds (JArr data) /\
                           Forall (stageable enc f) data) as (data & Hdisk & Hok)
        by (destruct f; try discriminate Hb; exact Hconf).
      rewrite (migrate_batched_run service enc f Hb disk data w Hdisk Hok).
      cbn [fst snd]. split; [done|].
      destruct data; cbn [loads with_line with_load]; [done|].
      by rewrite loads_after_batches.
    + assert (exists items, Py.iter (loaded (disk (fixture_path f))) = Ok items)
        as (items & Hitems)
        by (destruct f; try discriminate Hu; exact Hconf).
      destruct (Py.truthy (loaded (disk (fixture_path f)))) eqn:Htruthy.
      * rewrite (migrate_unbatched_iter disk service enc f _ items w Hu
                   (truthy_loaded _ Htruthy) Htruthy Hitems).
        cbn [fst snd loads with_line]. split; [done|].
        by destruct (store_add_all service f items (with_load (fixture_path f) w))
          as (_ & -> & _).
      * by apply nothing_visits.
    + by apply single_document_visits.
Qed.

Lemma migrate_data_visits disk service enc :
  (forall f, conforming enc f (disk (fixture_path f))) ->
  visits (map fixture_path all_fixtures) (migrate_data disk service enc).
Proof.
  intros Hall. unfold migrate_data.
  apply (visits_bind [] _ _ _ (visits_print _)).
  apply (visits_bind [_] _ _ _ (step_visits disk service enc Configuracion (Hall _))).
  apply (visits_bind [_] _ _ _ (step_visits disk service enc Numeros (Hall _))).
  apply (visits_bind [_] _ _ _ (step_visits disk service enc HorariosZulia (Hall _))).
  apply (visits_bind [_] _ _ _ (step_visits disk service enc Ganadores (Hall _))).
  apply (visits_bind [_] _ _ _ (step_visits disk service enc Premios (Hall _))).
  apply (visits_bind [_] _ _ _ (step_visits disk service enc Ventas (Hall _))).
  apply (visits_bind [_] _ _ _ (step_visits disk service enc ResultadosZulia (Hall _))).
  apply (visits_bind [_] _ _ _ (step_visits disk service enc Comprobantes (Hall _))).
  apply (visits_bind [] _ _ _ (visits_print _)).
  apply (visits_bind [] _ _ _ (visits_print _)).
  apply visits_print.
Qed.

(** ** A loop whose body raises *)






End StoreFacts.

Import Migrator Spec Trace Effects MigratorFacts StoreFacts.

(** X1: after the run every document of the destination either was there
    before or holds content taken unchanged from a fixture file, and no
    document outside the eight collections has changed. *)
Theorem stored_documents_are_prior_or_verbatim
  (disk : string -> fixture_file) (service : nat -> option exn)
  (encode_error : json -> option exn) (w : world) :
  (forall key v,
      docs (snd (migrate_data disk service encode_error w)) !! key = Some v ->
      docs w !! key = Some v \/ verbatim_payload disk (fst key) v) /\
  (forall c v,
      In (c, v) (assigned (snd (migrate_data disk service encode_error w))) ->
      In (c, v) (assigned w) \/ verbatim_payload disk c v).
Proof.
  destruct (logged_migrate_data service disk encode_error w)
    as (new & Hreq & Hdocs & Hassigned).
  destruct (emits_migrate_data disk service encode_error w)
    as [(new' & Hreq' & Hverbatim) _].
  rewrite Hreq in Hreq'. apply app_inv_head in Hreq' as <-.
  split.
  - intros key v. rewrite Hdocs.
    by apply (docs_replay_source service (verbatim_payload disk) new).
  - intros c v. rewrite Hassigned.
    by apply (assigned_replay_source service (verbatim_payload disk) new).
Qed.



Lemma stored_documents_witness :
  docs empty_world !! ("numeros", "014")
  = Some (JObj [("numero", JStr "014"); ("comprado", JBool false)]) \/
  verbatim_payload sample_disk (fst ("numeros", "014"))
    (JObj [("numero", JStr "014"); ("comprado", JBool false)]).
Proof.
  apply (proj1 (stored_documents_are_prior_or_verbatim
                  sample_disk always_ok encodes_all empty_world)
           ("numeros", "014")).
  reflexivity.
Defined.

(** X3: a per-record loop (winners, results, receipts) visits whatever a for
    loop visits in the parsed value (the elements of a list, the keys of an
    object, the characters of a text), issues one add per visited value, and
    stores exactly the values whose own write the service accepted; it
    changes no document with a chosen id. *)
Theorem per_record_loop_stores_the_accepted_records
  (disk : string -> fixture_file) (service : nat -> option exn)
  (encode_error : json -> option exn)
  (f : fixture) (v : json) (items : list json) (w : world) :
  unbatched f = true ->
  disk (fixture_path f) = Holds v ->
  Py.truthy v = true ->
  Py.iter v = Ok items ->
  fst (migrate_fixture disk service encode_error f w) = Ok tt /\
  requests (snd (migrate_fixture disk service encode_error f w))
  = requests w ++ map (AddDoc (collection_of f)) items /\
  docs (snd (migrate_fixture disk service encode_error f w)) = docs w /\
  assigned (snd (migrate_fixture disk service encode_error f w))
  = assigned w
    ++ map (pair (collection_of f)) (accepted service (length (requests w)) items).
Proof.
  intros Hf Hdisk Htruthy Hitems.
  rewrite (migrate_unbatched_iter _ _ _ _ _ _ _ Hf Hdisk Htruthy Hitems).
  cbn [fst snd requests docs assigned with_line].
  destruct (store_add_all service f items (with_load (fixture_path f) w))
    as (-> & _ & ->).
  by rewrite requests_add_all.
Qed.

Lemma per_record_loop_witness :
  fst (migrate_fixture disk_object_ganadores always_fails encodes_all
         Ganadores empty_world) = Ok tt /\
  requests (snd (migrate_fixture disk_object_ganadores always_fails encodes_all
                   Ganadores empty_world))
  = requests empty_world
    ++ map (AddDoc (collection_of Ganadores)) [JStr "primero"; JStr "segundo"] /\
  docs (snd (migrate_fixture disk_object_ganadores always_fails encodes_all
               Ganadores empty_world)) = docs empty_world /\
  assigned (snd (migrate_fixture disk_object_ganadores always_fails encodes_all
                   Ganadores empty_world))
  = assigned empty_world
    ++ map (pair (collection_of Ganadores))
           (accepted always_fails (length (requests empty_world))
                     [JStr "primero"; JStr "segundo"]).
Proof.
  apply (per_record_loop_stores_the_accepted_records
           disk_object_ganadores always_fails encodes_all Ganadores
           (JObj [("primero", JStr "Ana"); ("segundo", JStr "Luis")])
           [JStr "primero"; JStr "segundo"] empty_world);
    reflexivity.
Defined.

(** X4: a second execution of a per-record loop inserts every record again:
    with a service that accepts every call, after two runs each record is
    stored twice, under two assigned ids. *)
Theorem second_run_duplicates_assigned_records
  (disk : string -> fixture_file) (service : nat -> option exn)
  (encode_error : json -> option exn)
  (f : fixture) (records : list json) (w : world) :
  unbatched f = true ->
  disk (fixture_path f) = Holds (JArr records) ->
  (forall n, service n = None) ->
  assigned (snd (migrate_fixture disk service encode_error f
                   (snd (migrate_fixture disk service encode_error f w))))
  = assigned w
    ++ map (pair (collection_of f)) records
    ++ map (pair (collection_of f)) records.
Proof.
  intros Hf Hdisk Hok.
  rewrite !(migrate_unbatched_run _ _ _ _ _ _ Hf Hdisk).
  destruct records as [|record records']; cbn [snd]; [by rewrite app_nil_r|].
  set (records := record :: records') in *.
  cbn [assigned with_line].
  destruct (store_add_all service f records
              (with_load (fixture_path f)
                 (with_line (summary_line f (length records))
                    (fold_left (fun acc x => after_add service f x acc) records
                               (with_load (fixture_path f) w)))))
    as (_ & _ & ->).
  cbn [assigned with_load with_line].
  destruct (store_add_all service f records (with_load (fixture_path f) w))
    as (_ & _ & ->).
  rewrite !accepted_all by done. cbn [assigned with_load].
  by rewrite <- app_assoc.
Qed.

Lemma second_run_duplicates_witness :
  assigned (snd (migrate_fixture sample_disk always_ok encodes_all Ganadores
                   (snd (migrate_fixture sample_disk always_ok encodes_all Ganadores
                           empty_world))))
  = assigned empty_world
    ++ map (pair (collection_of Ganadores)) sample_ganadores
    ++ map (pair (collection_of Ganadores)) sample_ganadores.
Proof.
  apply (second_run_duplicates_assigned_records
           sample_disk always_ok encodes_all Ganadores sample_ganadores empty_world);
    reflexivity.
Defined.

(** X5: a batch is stored whole or not at all, each on its own: after the
    sales loop the destination holds, under assigned ids and in order, the
    sales of exactly those 500-record segments whose commit the service
    accepted; no document with a chosen id changes. *)
Theorem sales_store_holds_the_accepted_batches
  (disk : string -> fixture_file) (service : nat -> option exn)
  (encode_error : json -> option exn) (data : list json) (w : world) :
  disk VENTAS_FILE = Holds (JArr data) ->
  Forall (stageable encode_error Ventas) data ->
  docs (snd (migrate_ventas disk service encode_error w)) = docs w /\
  assigned (snd (migrate_ventas disk service encode_error w))
  = assigned w
    ++ map (pair "ventas")
           (concat (accepted_segments service (length (requests w)) (segments data))).
Proof.
  intros Hdisk Hok.
  destruct (same_store_migrate_batched service encode_error Ventas disk data w
              eq_refl Hdisk Hok) as [Hdocs Hassigned].
  cbn [migrate_fixture] in Hdocs, Hassigned. rewrite Hdocs, Hassigned.
  apply store_apply_ventas.
  apply List.Forall_forall. intros x Hx.
  apply (proj1 (List.Forall_forall _ _) Hok).
  by apply In_accepted_segments in Hx.
Qed.

Lemma sales_store_witness :
  docs (snd (migrate_ventas disk_sample_ventas first_call_fails encodes_all
               empty_world)) = docs empty_world /\
  assigned (snd (migrate_ventas disk_sample_ventas first_call_fails encodes_all
                   empty_world))
  = assigned empty_world
    ++ map (pair "ventas")
           (concat (accepted_segments first_call_fails
                      (length (requests empty_world)) (segments sample_ventas))).
Proof.
  apply (sales_store_holds_the_accepted_batches
           disk_sample_ventas first_call_fails encodes_all sample_ventas empty_world).
  - reflexivity.
  - repeat constructor; eexists; reflexivity.
Defined.

(** X6: after the numbers loop, the document under numeros/<numero> is the
    last element with that "numero" among the segments whose commit was
    accepted; when there is none, the document is what it was before. *)
Theorem numbers_store_holds_the_last_accepted_element
  (disk : string -> fixture_file) (service : nat -> option exn)
  (encode_error : json -> option exn) (data : list json) (numero : string)
  (w : world) :
  disk NUMEROS_FILE = Holds (JArr data) ->
  Forall (stageable encode_error Numeros) data ->
  docs (snd (migrate_numeros disk service encode_error w)) !! ("numeros", numero)
  = match last_numero numero
            (concat (accepted_segments service (length (requests w)) (segments data)))
    with
    | Some item => Some item
    | None => docs w !! ("numeros", numero)
    end.
Proof.
  intros Hdisk Hok.
  destruct (same_store_migrate_batched service encode_error Numeros disk data w
              eq_refl Hdisk Hok) as [Hdocs _].
  cbn [migrate_fixture] in Hdocs. rewrite Hdocs.
  apply docs_apply_numeros.
  apply List.Forall_forall. intros x Hx.
  apply (proj1 (List.Forall_forall _ _) Hok).
  by apply In_accepted_segments in Hx.
Qed.

Lemma numbers_store_witness :
  docs (snd (migrate_numeros sample_disk always_ok encodes_all empty_world))
    !! ("numeros", "014")
  = match last_numero "014"
            (concat (accepted_segments always_ok (length (requests empty_world))
                       (segments sample_numeros)))
    with
    | Some item => Some item
    | None => docs empty_world !! ("numeros", "014")
    end.
Proof.
  apply (numbers_store_holds_the_last_accepted_element
           sample_disk always_ok encodes_all sample_numeros "014" empty_world).
  - reflexivity.
  - repeat constructor; eexists; reflexivity.
Defined.



(** X8: service failures never stop the run: when every fixture file is one
    the steps get through (nothing to migrate, or a list of elements that
    can be staged, or a value a for loop can visit), migrate_data returns
    normally and loads the eight files in order, whatever the service
    answers to any call. *)
Theorem run_reaches_every_fixture_whatever_the_service_answers
  (disk : string -> fixture_file) (service : nat -> option exn)
  (encode_error : json -> option exn) (w : world) :
  (forall f, conforming encode_error f (disk (fixture_path f))) ->
  fst (migrate_data disk service encode_error w) = Ok tt /\
  loads (snd (migrate_data disk service encode_error w))
  = loads w ++ map fixture_path all_fixtures.
Proof.
  intros Hall. apply (migrate_data_visits disk service encode_error Hall w).
Qed.

Lemma run_reaches_every_fixture_witness :
  fst (migrate_data sample_disk always_fails encodes_all empty_world) = Ok tt /\
  loads (snd (migrate_data sample_disk always_fails encodes_all empty_world))
  = loads empty_world ++ map fixture_path all_fixtures.
Proof.
  apply (run_reaches_every_fixture_whatever_the_service_answers
           sample_disk always_fails encodes_all empty_world).
  intros f. destruct f;
    first [ left; reflexivity
          | right; eexists; split; [reflexivity|];
            repeat constructor; eexists; reflexivity
          | right; eexists; reflexivity ].
Defined.

(** X9: the closing line of a list fixture counts the records read, not the
    records written: when the service rejects every call nothing is stored,
    yet the step returns and its last line still reports the whole list. *)
Theorem summary_counts_records_read_not_written
  (disk : string -> fixture_file) (service : nat -> option exn)
  (encode_error : json -> option exn)
  (f : fixture) (data : list json) (w : world) :
  list_fixture f = true ->
  disk (fixture_path f) = Holds (JArr data) ->
  data <> [] ->
  (batched f = true -> Forall (stageable encode_error f) data) ->
  (forall n, service n <> None) ->
  fst (migrate_fixture disk service encode_error f w) = Ok tt /\
  docs (snd (migrate_fixture disk service encode_error f w)) = docs w /\
  assigned (snd (migrate_fixture disk service encode_error f w)) = assigned w /\
  last (stdout (snd (migrate_fixture disk service encode_error f w)))
  = Some (summary_line f (length data)).
Proof.
  intros Hf Hdisk Hdata Hok Hfail.
  destruct (batched f) eqn:Hb.
  - specialize (Hok eq_refl).
    destruct (same_store_migrate_batched service encode_error f disk data w
                Hb Hdisk Hok) as [Hdocs Hassigned].
    rewrite accepted_segments_none in Hdocs, Hassigned by done.
    rewrite Hdocs, Hassigned.
    rewrite (migrate_batched_run service encode_error f Hb disk data w Hdisk Hok).
    destruct data as [|item data']; [done|].
    cbn [fst snd stdout with_line]. by rewrite last_snoc.
  - assert (unbatched f = true) as Hu.
    { unfold list_fixture in Hf. by rewrite Hb in Hf. }
    rewrite (migrate_unbatched_run _ _ _ _ _ _ Hu Hdisk).
    destruct data as [|item data']; [done|].
    cbn [fst snd stdout docs assigned with_line].
    destruct (store_add_all service f (item :: data') (with_load (fixture_path f) w))
      as (-> & _ & ->).
    rewrite accepted_none by done. cbn [map]. rewrite app_nil_r, last_snoc. done.
Qed.

Lemma summary_counts_witness :
  fst (migrate_fixture sample_disk always_fails encodes_all Numeros empty_world)
  = Ok tt /\
  docs (snd (migrate_fixture sample_disk always_fails encodes_all Numeros empty_world))
  = docs empty_world /\
  assigned (snd (migrate_fixture sample_disk always_fails encodes_all Numeros
                   empty_world))
  = assigned empty_world /\
  last (stdout (snd (migrate_fixture sample_disk always_fails encodes_all Numeros
                       empty_world)))
  = Some (summary_line Numeros (length sample_numeros)).
Proof.
  apply (summary_counts_records_read_not_written
           sample_disk always_fails encodes_all Numeros sample_numeros empty_world).
  - reflexivity.
  - reflexivity.
  - discriminate.
  - intros _. repeat constructor; eexists; reflexivity.
  - discriminate.
Defined.

(** X10: the single-document steps (configuration, prizes) write the whole
    parsed value to <collection>/general: an accepted write replaces whatever
    was there and prints the success line; a rejected write changes nothing,
    prints the error and lets the step return. *)
Theorem single_document_is_replaced_or_left
  (disk : string -> fixture_file) (service : nat -> option exn)
  (encode_error : json -> option exn) (f : fixture) (v : json) (w : world) :
  f = Configuracion \/ f = Premios ->
  disk (fixture_path f) = Holds v ->
  Py.truthy v = true ->
  fst (migrate_fixture disk service encode_error f w) = Ok tt /\
  requests (snd (migrate_fixture disk service encode_error f w))
  = requests w ++ [SetDoc (collection_of f) "general" v] /\
  assigned (snd (migrate_fixture disk service encode_error f w)) = assigned w /\
  match service (length (requests w)) with
  | None =>
      docs (snd (migrate_fixture disk service encode_error f w))
      = <[(collection_of f, "general") := v]> (docs w) /\
      stdout (snd (migrate_fixture disk service encode_error f w))
      = stdout w ++ [set_ok_line f]
  | Some e =>
      docs (snd (migrate_fixture disk service encode_error f w)) = docs w /\
      stdout (snd (migrate_fixture disk service encode_error f w))
      = stdout w ++ [set_error_line f e]
  end.
Proof.
  intros [-> | ->] Hdisk Htruthy; cbn [migrate_fixture fixture_path] in *;
    unfold migrate_configuracion, migrate_premios, bind;
    rewrite load_json_eq, Hdisk; cbn [loaded load_lines fold_left];
    rewrite Htruthy;
    unfold try_except, doc_set, call, print; cbn [requests with_load];
    by destruct (service (length (requests w))).
Qed.

Lemma single_document_witness :
  fst (migrate_fixture disk_configuracion always_ok encodes_all Configuracion
         empty_world) = Ok tt /\
  requests (snd (migrate_fixture disk_configuracion always_ok encodes_all
                   Configuracion empty_world))
  = requests empty_world
    ++ [SetDoc (collection_of Configuracion) "general" (JObj [("precio", JInt 3)])] /\
  assigned (snd (migrate_fixture disk_configuracion always_ok encodes_all
                   Configuracion empty_world)) = assigned empty_world /\
  match always_ok (length (requests empty_world)) with
  | None =>
      docs (snd (migrate_fixture disk_configuracion always_ok encodes_all
                   Configuracion empty_world))
      = <[(collection_of Configuracion, "general") := JObj [("precio", JInt 3)]]>
          (docs empty_world) /\
      stdout (snd (migrate_fixture disk_configuracion always_ok encodes_all
                     Configuracion empty_world))
      = stdout empty_world ++ [set_ok_line Configuracion]
  | Some e =>
      docs (snd (migrate_fixture disk_configuracion always_ok encodes_all
                   Configuracion empty_world)) = docs empty_world /\
      stdout (snd (migrate_fixture disk_configuracion always_ok encodes_all
                     Configuracion empty_world))
      = stdout empty_world ++ [set_error_line Configuracion e]
  end.
Proof.
  apply (single_document_is_replaced_or_left
           disk_configuracion always_ok encodes_all Configuracion
           (JObj [("precio", JInt 3)]) empty_world).
  - left. reflexivity.
  - reflexivity.
  - reflexivity.
Defined.

(** X11: the schedule is stored under the single field "horarios" as soon as
    the write is accepted; the line printed afterwards takes len() of the
    parsed value inside the same try block, so for a value without a length
    (a number, true) the console reports an error although the document has
    been stored. *)
Theorem schedule_is_stored_before_it_is_counted
  (disk : string -> fixture_file) (service : nat -> option exn)
  (encode_error : json -> option exn) (v : json) (w : world) :
  disk HORARIOS_ZULIA_FILE = Holds v ->
  Py.truthy v = true ->
  service (length (requests w)) = None ->
  fst (migrate_fixture disk service encode_error HorariosZulia w) = Ok tt /\
  docs (snd (migrate_fixture disk service encode_error HorariosZulia w))
  = <[("horarios_zulia", "horarios_principales") := JObj [("horarios", v)]]> (docs w) /\
  stdout (snd (migrate_fixture disk service encode_error HorariosZulia w))
  = stdout w
    ++ [ match Py.len v with
         | Ok total =>
             [Text "Migrados "; Num total;
              Text " horarios de Zulia a 'horarios_zulia/horarios_principales'."]
         | Raise e => [Text "Error al migrar horarios de Zulia: "; Err e]
         end ].
Proof.
  intros Hdisk Htruthy Hservice. cbn [migrate_fixture].
  unfold migrate_horarios_zulia, bind.
  rewrite load_json_eq, Hdisk. cbn [loaded load_lines fold_left].
  rewrite Htruthy.
  unfold try_except, doc_set, call, print, lift. cbn [requests with_load].
  rewrite Hservice. by destruct (Py.len v).
Qed.

Lemma schedule_witness :
  fst (migrate_fixture disk_scalar_horarios always_ok encodes_all HorariosZulia
         empty_world)
  = Ok tt /\
  docs (snd (migrate_fixture disk_scalar_horarios always_ok encodes_all
               HorariosZulia empty_world))
  = <[("horarios_zulia", "horarios_principales") := JObj [("horarios", JInt 5)]]>
      (docs empty_world) /\
  stdout (snd (migrate_fixture disk_scalar_horarios always_ok encodes_all
                 HorariosZulia empty_world))
  = stdout empty_world
    ++ [ match Py.len (JInt 5) with
         | Ok total =>
             [Text "Migrados "; Num total;
              Text " horarios de Zulia a 'horarios_zulia/horarios_principales'."]
         | Raise e => [Text "Error al migrar horarios de Zulia: "; Err e]
         end ].
Proof.
  apply (schedule_is_stored_before_it_is_counted
           disk_scalar_horarios always_ok encodes_all (JInt 5) empty_world);
    reflexivity.
Defined.

(** X12: a list fixture that holds something else stops the whole run: for a
    truthy value without a length (a number, true) in any of the five list
    fixtures, and for an object in a batching loop, the step raises outside
    every try block, before anything is sent. *)
Theorem value_that_is_no_list_raises
  (disk : string -> fixture_file) (service : nat -> option exn)
  (encode_error : json -> option exn) (f : fixture) (v : json) (w : world) :
  list_fixture f = true ->
  disk (fixture_path f) = Holds v ->
  Py.truthy v = true ->
  scalar v = true \/ (batched f = true /\ exists fields, v = JObj fields) ->
  (exists e, fst (migrate_fixture disk service encode_error f w) = Raise e) /\
  requests (snd (migrate_fixture disk service encode_error f w)) = requests w /\
  docs (snd (migrate_fixture disk service encode_error f w)) = docs w /\
  assigned (snd (migrate_fixture disk service encode_error f w)) = assigned w.
Proof.
  intros Hf Hdisk Htruthy Hshape.
  assert (exists e, migrate_fixture disk service encode_error f w
                    = (Raise e, with_load (fixture_path f) w)) as [e ->].
  { destruct (batched f) eqn:Hb.
    - rewrite (migrate_batched_eq _ _ _ _ Hb). unfold bind at 1.
      rewrite load_json_eq, Hdisk. cbn [loaded load_lines fold_left]. rewrite Htruthy.
      destruct Hshape as [Hscalar | (_ & fields & ->)].
      + destruct v; try discriminate Hscalar; unfold bind, lift; cbn; eauto.
      + destruct fields as [|field fields]; [discriminate Htruthy|].
        unfold bind, lift. cbn [Py.len length]. unfold Py.range.
        cbn [Py.range_from Nat.ltb Nat.leb for_each].
        unfold bind, batch_body, bind, lift. cbn. eauto.
    - assert (unbatched f = true) as Hu.
      { unfold list_fixture in Hf. by rewrite Hb in Hf. }
      destruct Hshape as [Hscalar | (Hcontra & _)]; [|discriminate Hcontra].
      rewrite (migrate_unbatched_eq _ _ _ _ Hu). unfold bind at 1.
      rewrite load_json_eq, Hdisk. cbn [loaded load_lines fold_left]. rewrite Htruthy.
      destruct v; try discriminate Hscalar; unfold bind, lift; cbn; eauto. }
  cbn. eauto.
Qed.

Lemma value_that_is_no_list_witness :
  (exists e, fst (migrate_fixture disk_scalar_ganadores always_ok encodes_all
                    Ganadores empty_world) = Raise e) /\
  requests (snd (migrate_fixture disk_scalar_ganadores always_ok encodes_all
                   Ganadores empty_world)) = requests empty_world /\
  docs (snd (migrate_fixture disk_scalar_ganadores always_ok encodes_all
               Ganadores empty_world)) = docs empty_world /\
  assigned (snd (migrate_fixture disk_scalar_ganadores always_ok encodes_all
                   Ganadores empty_world)) = assigned empty_world.
Proof.
  apply (value_that_is_no_list_raises
           disk_scalar_ganadores always_ok encodes_all Ganadores (JInt 5) empty_world).
  - reflexivity.
  - reflexivity.
  - reflexivity.
  - left. reflexivity.
Defined.



(** X14: a blob in the environment variable that cannot be used ends the run:
    the service-account file is not tried instead, whatever its state; the
    three lines of the credential block are printed, the first with the
    exception, and nothing else happens. *)
Theorem unusable_blob_is_not_replaced_by_the_file
  (disk : string -> fixture_file) (service : nat -> option exn)
  (encode_error : json -> option exn)
  (blob : string) (certificate connect : credential -> option exn)
  (e : exn) (w : world) :
  blob <> "" ->
  certificate (FromEnvironment blob) = Some e ->
  main disk service encode_error (Some blob) certificate connect w
  = (Ok false,
     fold_left (fun acc l => with_line l acc) (credential_error_lines e) w).
Proof.
  intros Hblob Hcert. apply String.eqb_neq in Hblob.
  unfold main, initialize, credential_source, bind, try_except, lift, print, ret.
  rewrite Hblob. cbn [negb]. by rewrite Hcert.
Qed.

Lemma unusable_blob_witness :
  main sample_disk always_ok encodes_all (Some "not json")
       (fun cred => match cred with
                    | FromEnvironment _ => Some (Exn "JSONDecodeError" "Expecting value")
                    | FromFile _ => None
                    end)
       accepts_all empty_world
  = (Ok false,
     fold_left (fun acc l => with_line l acc)
               (credential_error_lines (Exn "JSONDecodeError" "Expecting value"))
               empty_world).
Proof.
  apply (unusable_blob_is_not_replaced_by_the_file
           sample_disk always_ok encodes_all "not json").
  - discriminate.
  - reflexivity.
Defined.

(** X15: a run that finds its credential but none of the eight fixture files
    returns normally, sends nothing and prints thirteen lines: the two
    opening lines, one warning per file in the order of the steps, and the
    three closing lines. *)
Theorem run_without_fixtures_warns_eight_times
  (disk : string -> fixture_file) (service : nat -> option exn)
  (encode_error : json -> option exn)
  (environ : option string) (certificate connect : credential -> option exn)
  (w : world) :
  certificate (credential_source environ) = None ->
  connect (credential_source environ) = None ->
  (forall f, disk (fixture_path f) = Absent) ->
  fst (main disk service encode_error environ certificate connect w) = Ok true /\
  requests (snd (main disk service encode_error environ certificate connect w))
  = requests w /\
  stdout (snd (main disk service encode_error environ certificate connect w))
  = stdout w ++ lines_without_fixtures.
Proof.
  intros Hcert Hconnect Hdisk.
  pose proof (Hdisk Configuracion) as H1. pose proof (Hdisk Numeros) as H2.
  pose proof (Hdisk HorariosZulia) as H3. pose proof (Hdisk Ganadores) as H4.
  pose proof (Hdisk Premios) as H5. pose proof (Hdisk Ventas) as H6.
  pose proof (Hdisk ResultadosZulia) as H7. pose proof (Hdisk Comprobantes) as H8.
  cbn [fixture_path] in *.
  unfold main, initialize, migrate_data, bind, try_except, print, ret.
  rewrite Hcert, Hconnect.
  unfold migrate_configuracion, migrate_numeros, migrate_horarios_zulia,
         migrate_ganadores, migrate_premios, migrate_ventas,
         migrate_resultados_zulia, migrate_comprobantes, bind, load_json, ret.
  cbn [with_load with_line fst snd docs assigned requests loads stdout].
  rewrite H1, H2, H3, H4, H5, H6, H7, H8.
  cbn [Py.truthy ret with_load with_line fst snd docs assigned requests loads stdout].
  unfold ret. cbn [fst snd requests stdout].
  split; [done|]. split; [done|].
  unfold lines_without_fixtures, absent_line. cbn [map all_fixtures fixture_path app].
  by rewrite <- !app_assoc.
Qed.

Lemma run_without_fixtures_witness :
  fst (main empty_disk always_ok encodes_all (Some "{}") accepts_all accepts_all
         empty_world) = Ok true /\
  requests (snd (main empty_disk always_ok encodes_all (Some "{}") accepts_all
                   accepts_all empty_world))
  = requests empty_world /\
  stdout (snd (main empty_disk always_ok encodes_all (Some "{}") accepts_all
                 accepts_all empty_world))
  = stdout empty_world ++ lines_without_fixtures.
Proof.
  apply (run_without_fixtures_warns_eight_times
           empty_disk always_ok encodes_all (Some "{}") accepts_all accepts_all
           empty_world);
    reflexivity.
Defined.

(** * Further facts about the encoder and the time helpers *)
Module TextFacts.
Import Base64 Base64Facts EncodeKey EncodedText Timestamp.

Lemma sextet_char_in_alphabet (n : N) : (n < 64)%N -> In (sextet_char n) alphabet.
Proof.
  intros Hn. unfold sextet_char. apply nth_In.
  change (length alphabet) with 64. lia.
Qed.

Lemma base64_sextet (n : N) : (n < 64)%N -> base64_char (sextet_char n).
Proof. intros Hn. left. by apply sextet_char_in_alphabet. Qed.

Lemma base64_pad : base64_char pad.
Proof. by right. Qed.

Lemma encode1_chars (a : byte) : Forall base64_char (encode1 a).
Proof.
  pose proof (Byte.to_N_bounded a). unfold encode1.
  constructor; [apply base64_sextet; euclid|].
  constructor; [apply base64_sextet; euclid|].
  constructor; [apply base64_pad|].
  constructor; [apply base64_pad|]. constructor.
Qed.

Lemma encode2_chars (a b : byte) : Forall base64_char (encode2 a b).
Proof.
  pose proof (Byte.to_N_bounded a). pose proof (Byte.to_N_bounded b).
  unfold encode2.
  constructor; [apply base64_sextet; euclid|].
  constructor; [apply base64_sextet; euclid|].
  constructor; [apply base64_sextet; euclid|].
  constructor; [apply base64_pad|]. constructor.
Qed.

Lemma encode3_chars (a b c : byte) : Forall base64_char (encode3 a b c).
Proof.
  pose proof (Byte.to_N_bounded a). pose proof (Byte.to_N_bounded b).
  pose proof (Byte.to_N_bounded c). unfold encode3.
  constructor; [apply base64_sextet; euclid|].
  constructor; [apply base64_sextet; euclid|].
  constructor; [apply base64_sextet; euclid|].
  constructor; [apply base64_sextet; euclid|]. constructor.
Qed.

Lemma b64encode_shape_upto (n : nat) : forall bs : list byte,
  length bs <= n ->
  length (b64encode bs) = 4 * ((length bs + 2) / 3) /\
  Forall base64_char (b64encode bs).
Proof.
  induction n as [|n IH]; intros bs Hlen.
  - destruct bs; [|cbn in Hlen; lia]. split; [reflexivity|constructor].
  - destruct bs as [|a [|b [|c rest]]].
    + split; [reflexivity|constructor].
    + split; [reflexivity|apply encode1_chars].
    + split; [reflexivity|apply encode2_chars].
    + change (b64encode (a :: b :: c :: rest))
        with (encode3 a b c ++ b64encode rest).
      destruct (IH rest) as [Hlength Hchars]; [cbn in Hlen; lia|].
      split.
      * rewrite length_app, Hlength.
        change (length (encode3 a b c)) with 4.
        change (length (a :: b :: c :: rest)) with (3 + length rest).
        replace (3 + length rest + 2) with (length rest + 2 + 1 * 3) by lia.
        rewrite Nat.div_add by lia. lia.
      * apply Forall_app. split; [apply encode3_chars|exact Hchars].
Qed.

Lemma length_string_of_list_byte (l : list byte) :
  String.length (string_of_list_byte l) = length l.
Proof.
  unfold string_of_list_byte.
  induction l as [|b l IH]; [reflexivity|].
  cbn [map string_of_list_ascii String.length length]. by f_equal.
Qed.

(** ** Zero-padded digits *)










End TextFacts.

Import Base64 Base64Facts EncodeKey Spec Effects EncodedText Timestamp TextFacts.

(** X16: the text the encoder prints between the markers is one line of
    base64: for a file of n bytes it has 4 * ceil(n / 3) characters, each a
    letter of the base64 alphabet or the padding sign, and no line break, so
    it can be pasted into one environment variable. *)
Theorem encoded_text_is_one_line_of_base64
  (disk : string -> key_file) (bs : list byte) :
  disk EncodeKey.SERVICE_ACCOUNT_FILE = Bytes bs ->
  length (printed_key (encode_key disk)) = 4 * ((length bs + 2) / 3) /\
  Forall base64_char (printed_key (encode_key disk)) /\
  ~ In newline (printed_key (encode_key disk)).
Proof.
  intros Hdisk. unfold printed_key, encode_key. rewrite Hdisk.
  cbn [between_markers START_MARKER END_MARKER]. unfold encoded_string.
  rewrite list_byte_of_string_of_list_byte.
  destruct (b64encode_shape_upto (length bs) bs (le_n _)) as [Hlength Hchars].
  split; [exact Hlength|]. split; [exact Hchars|].
  intros Hin. apply (proj1 (List.Forall_forall _ _) Hchars) in Hin.
  destruct Hin as [Hin|Hin]; [|discriminate Hin].
  vm_compute in Hin.
  repeat (destruct Hin as [Hin|Hin]; [discriminate Hin|]). exact Hin.
Qed.

Lemma encoded_text_is_one_line_witness :
  length (printed_key (encode_key sample_key_disk))
  = 4 * ((length sample_key + 2) / 3) /\
  Forall base64_char (printed_key (encode_key sample_key_disk)) /\
  ~ In newline (printed_key (encode_key sample_key_disk)).
Proof.
  apply (encoded_text_is_one_line_of_base64 sample_key_disk sample_key).
  reflexivity.
Defined.

(** X17: when the key file is there but cannot be opened or read, the encoder
    prints one line, the error with the exception, and nothing else: no
    marker and no encoded text. *)
Theorem unreadable_key_file_prints_one_error_line
  (disk : string -> key_file) (e : exn) :
  disk EncodeKey.SERVICE_ACCOUNT_FILE = Unreadable e ->
  encode_key disk = [ [Text "Error al codificar el archivo: "; Err e] ] /\
  ~ In START_MARKER (encode_key disk) /\
  ~ In END_MARKER (encode_key disk) /\
  between_markers (encode_key disk) = None.
Proof.
  intros Hdisk. unfold encode_key. rewrite Hdisk.
  split; [reflexivity|].
  split; [|split; [|reflexivity]]; intros [Heq|[]]; discriminate Heq.
Qed.

Lemma unreadable_key_file_witness :
  encode_key unreadable_key_disk
  = [ [Text "Error al codificar el archivo: ";
       Err (Exn "PermissionError" "Permission denied")] ] /\
  ~ In START_MARKER (encode_key unreadable_key_disk) /\
  ~ In END_MARKER (encode_key unreadable_key_disk) /\
  between_markers (encode_key unreadable_key_disk) = None.
Proof.
  apply (unreadable_key_file_prints_one_error_line unreadable_key_disk).
  reflexivity.
Defined.





(** X20: the formatted text leaves out the microsecond and the time zone: two
    datetimes with the same year, month, day, hour, minute and second give
    the same text, so the offset of the Venezuelan clock is not in it. *)
Theorem timestamp_leaves_out_zone_and_microsecond (dt1 dt2 : datetime) :
  shown dt1 = shown dt2 ->
  format_timestamp dt1 = format_timestamp dt2.
Proof.
  unfold shown, format_timestamp, strftime_chars.
  intros [= -> -> -> -> -> ->]. reflexivity.
Qed.

Lemma timestamp_leaves_out_witness :
  format_timestamp new_years_eve = format_timestamp new_years_eve_naive.
Proof.
  apply (timestamp_leaves_out_zone_and_microsecond new_years_eve new_years_eve_naive).
  reflexivity.
Defined.
